(** * Multi-frame transport-protocol reassembly: [MultiFrameDecoder]

    A shallow embedding of the class [MultiFrameDecoder] of
    [examples/data-processing/utils.py] and the properties of its
    methods [construct_new_tp_frame], [combine_tp_frames],
    [decode_tp_data] and of the presets [combine_tp_frames_uds],
    [combine_tp_frames_nmea] and [combine_tp_frames_j1939].

    Python objects that the code shares and updates in place (the pandas
    Series used as template frame) live in an explicit heap; exceptions
    are values of an error monad; the locals of [combine_tp_frames] are a
    record threaded through its loops, because Python locals survive
    from one loop iteration to the next. *)

From Stdlib Require Import ZArith String Ascii Lia.
From Stdlib Require Import HexadecimalString HexadecimalPos.
From stdpp Require Import base option list sorting gmap strings.

Local Open Scope Z_scope.

(** ** Exceptions and the error monad *)

Inductive exn : Set :=
  | TypeError
  | IndexError
  | ValueError
  | UnboundLocalError.

Inductive result (A : Type) : Type :=
  | Ok (a : A)
  | Raise (e : exn).
Arguments Ok {A} a.
Arguments Raise {A} e.

Global Instance result_ret : MRet result := fun A a => Ok a.
Global Instance result_bind : MBind result := fun A B f m =>
  match m with
  | Ok a => f a
  | Raise e => Raise e
  end.

(** A Python [for] loop whose body can only leave early by raising. *)
Fixpoint for_each {S A : Type} (body : S -> A -> result S) (l : list A) (s : S)
  : result S :=
  match l with
  | [] => Ok s
  | x :: l' => s' ← body s x; for_each body l' s'
  end.

(** ** Frames and frame tables *)

(** One row of the raw data frame without its index: the columns the
    code names, and [IDE] standing for the columns it never touches. *)
Record Frame : Set := mkFrame {
  BusChannel : Z;
  ID : Z;
  IDE : bool;
  DLC : Z;
  DataLength : Z;
  DataBytes : list Z
}.

Global Instance Frame_eq_dec : EqDecision Frame.
Proof. solve_decision. Defined.

Global Instance Frame_inhabited : Inhabited Frame :=
  populate (mkFrame 0 0 false 0 0 []).

(** The index of the data frame is the time stamp. *)
Abbreviation Row := (Z * Frame)%type.
Abbreviation DataFrame := (list Row).

Definition TimeStamp (r : Row) : Z := r.1.

Definition set_DataBytes (v : list Z) (f : Frame) : Frame :=
  mkFrame (BusChannel f) (ID f) (IDE f) (DLC f) (DataLength f) v.
Definition set_DLC (v : Z) (f : Frame) : Frame :=
  mkFrame (BusChannel f) (ID f) (IDE f) v (DataLength f) (DataBytes f).
Definition set_DataLength (v : Z) (f : Frame) : Frame :=
  mkFrame (BusChannel f) (ID f) (IDE f) (DLC f) v (DataBytes f).
Definition set_ID (v : Z) (f : Frame) : Frame :=
  mkFrame (BusChannel f) v (IDE f) (DLC f) (DataLength f) (DataBytes f).

(** ** pandas operations *)

(** [df[df["ID"].isin(ids)]] and its complement [df[~df["ID"].isin(ids)]]. *)
Definition isin (ids : list Z) (df : DataFrame) : DataFrame :=
  filter (fun r : Row => ID r.2 ∈ ids) df.
Definition not_isin (ids : list Z) (df : DataFrame) : DataFrame :=
  filter (fun r : Row => ID r.2 ∉ ids) df.

(** [df.sort_index()]: rows in ascending time stamp order.  The default
    sort of pandas does not fix the order among rows of equal time
    stamps; here they keep their order in the table, and no theorem
    depends on the order among equal time stamps. *)
Definition ts_le {A : Type} (r1 r2 : Z * A) : Prop := r1.1 <= r2.1.

Global Instance ts_le_dec {A : Type} : RelDecision (@ts_le A).
Proof. intros r1 r2. unfold ts_le. apply _. Defined.

Fixpoint insert_by_index {A : Type} (r : Z * A) (df : list (Z * A))
  : list (Z * A) :=
  match df with
  | [] => [r]
  | x :: df' =>
    if decide (ts_le r x) then r :: x :: df' else x :: insert_by_index r df'
  end.

Definition sort_index {A : Type} (df : list (Z * A)) : list (Z * A) :=
  foldr insert_by_index [] df.

(** [df.groupby(col)]: one group per distinct value of the column, keys
    ascending, each group keeping the rows in their order. *)
Definition groupby (col : Frame -> Z) (df : DataFrame) : list (Z * DataFrame) :=
  (fun k => (k, filter (fun r : Row => col r.2 = k) df))
    <$> merge_sort Z.le (remove_dups (col <$> (snd <$> df))).

(** ** Python values *)

(** [l[start:]] for a Python int [start]. *)
Definition slice_from {A : Type} (start : Z) (l : list A) : list A :=
  if start <? 0
  then drop (Z.to_nat (Z.max 0 (Z.of_nat (length l) + start))) l
  else drop (Z.to_nat start) l.

(** [l[5:8]] *)
Definition slice_5_8 {A : Type} (l : list A) : list A := take 3 (drop 5 l).

(** [l[0]] *)
Definition index0 {A : Type} (l : list A) : result A :=
  match l with
  | [] => Raise IndexError
  | x :: _ => Ok x
  end.

(** An [int] never equals a [str]: comparing [n] with the empty string
    gives [False]. *)
Definition int_eq_str (n : Z) (s : string) : bool := false.

(** Truth value of an [int] or [None]. *)
Definition truthy (v : option Z) : bool :=
  match v with
  | None => false
  | Some z => negb (z =? 0)
  end.

Definition lower (c : ascii) : ascii :=
  let n := nat_of_ascii c in
  if (Nat.leb 65 n && Nat.leb n 70)%bool then ascii_of_nat (n + 32) else c.

Fixpoint lowercase (s : string) : string :=
  match s with
  | EmptyString => EmptyString
  | String c s' => String (lower c) (lowercase s')
  end.

(** [int(s, 16)] on the strings made of hexadecimal digits of either
    case with an optional leading minus sign, [ValueError] on the empty
    string included.  The further spellings Python reads (a plus sign, a
    [0x] prefix, underscores, blanks around the number) are outside this
    definition: whenever it returns a number, Python returns the same
    one, and no statement below rests on a [ValueError] of it. *)
Definition int16 (s : string) : result Z :=
  match NilZero.int_of_string (lowercase s) with
  | Some d => Ok (Z.of_hex_int d)
  | None => Raise ValueError
  end.

(** ["{:02x}".format(x)] *)
Definition format_02x (x : Z) : string :=
  let s := NilZero.string_of_int (Z.to_hex_int x) in
  if Nat.ltb (String.length s) 2 then String "0" s else s.

(** [sep.join(l)] for the empty separator *)
Definition join (l : list string) : string := foldr String.append EmptyString l.

(** ** The decoder object *)

(** [res_id_list] holds the integers [__init__] parses from
    [res_id_list_hex]. *)
Record MultiFrameDecoder : Set := mkDecoder {
  df_raw : DataFrame;
  res_id_list : list Z
}.

(** [__init__]: the identifiers are parsed when the decoder is built. *)
Fixpoint parse_ids (res_id_list_hex : list string) : result (list Z) :=
  match res_id_list_hex with
  | [] => Ok []
  | res_id :: rest => n ← int16 res_id; ns ← parse_ids rest; Ok (n :: ns)
  end.

Definition init (df_raw : DataFrame) (res_id_list_hex : list string)
  : result MultiFrameDecoder :=
  ids ← parse_ids res_id_list_hex; Ok (mkDecoder df_raw ids).

(** The eight positional parameters of [combine_tp_frames]. *)
Record Profile : Set := mkProfile {
  SINGLE_FRAME_MASK : Z;
  FIRST_FRAME_MASK : Z;
  CONSEQ_FRAME_MASK : Z;
  SINGLE_FRAME : Z;
  FIRST_FRAME : Z;
  CONSEQ_FRAME : Z;
  first_frame_payload_start : Z;
  conseq_frame_payload_start : Z
}.

(** ** The heap of Series objects *)

Abbreviation loc := nat.
Abbreviation heap := (gmap nat Frame).

(** [df.iloc[0]] builds a new Series holding the values of the row. *)
Definition alloc (h : heap) (f : Frame) : heap * loc :=
  let l := fresh (dom h) in (<[l := f]> h, l).

(** [series.at[col] = v] *)
Definition at_set (upd : Frame -> Frame) (l : loc) (h : heap) : heap :=
  alter upd l h.

(** [series.values.tolist()] *)
Definition values_tolist (h : heap) (l : loc) : Frame := h !!! l.

(** ** [construct_new_tp_frame]

    [new_frame = base_frame] binds a second name to the same Series, so
    the three or four assignments update the object [base_frame] refers
    to, and the reference returned is [base_frame] itself. *)
Definition construct_new_tp_frame
    (h : heap) (base_frame : loc) (payload_concatenated : list Z)
    (can_id : option Z) : heap * loc :=
  let new_frame := base_frame in
  let h := at_set (set_DataBytes payload_concatenated) new_frame h in
  let h := at_set (set_DLC 0) new_frame h in
  let h := at_set (set_DataLength (Z.of_nat (length payload_concatenated)))
                  new_frame h in
  let h := if truthy can_id
           then at_set (set_ID (default 0 can_id)) new_frame h
           else h in
  (h, new_frame).

(** The call [self.construct_new_tp_frame(base_frame, payload[1:])] of the
    single-frame branch gives two of the three positional arguments the
    method requires ([can_id] has no default): Python raises [TypeError]
    before the body runs. *)
Definition construct_new_tp_frame_without_can_id
    (h : heap) (base_frame : loc) (payload_concatenated : list Z)
  : result (heap * loc) :=
  Raise TypeError.

(** ** [combine_tp_frames] *)

(** The locals of [combine_tp_frames] that live across iterations.
    [frame_timestamp] is unbound ([None]) until a first frame binds it,
    and no later iteration of the identifier loop unbinds it. *)
Record Locals : Set := mkLocals {
  df_raw_combined : DataFrame;
  frame_list : list Frame;
  frame_timestamp_list : list Z;
  payload_concatenated : list Z;
  can_id : option Z;
  frame_timestamp : option Z
}.

Definition read_frame_timestamp (st : Locals) : result Z :=
  match frame_timestamp st with
  | Some t => Ok t
  | None => Raise UnboundLocalError
  end.

(** The three tests of the [if]/[elif] chain, as Python parses them.
    In the second one [&] binds tighter than [==], and the comparison
    chains: with [e] the empty string, [a & M == F & bam_id == e] is
    [(a & M) == (F & bam_id) and (F & bam_id) == e]. *)
Definition is_single (p : Profile) (first_byte : Z) : bool :=
  Z.land first_byte (SINGLE_FRAME_MASK p) =? SINGLE_FRAME p.

Definition is_first (p : Profile) (bam_id first_byte row_id : Z) : bool :=
  ((Z.land first_byte (FIRST_FRAME_MASK p) =? Z.land (FIRST_FRAME p) bam_id)
     && int_eq_str (Z.land (FIRST_FRAME p) bam_id) EmptyString)
  || (bam_id =? row_id).

Definition is_conseq (p : Profile) (first_byte : Z) : bool :=
  Z.land first_byte (CONSEQ_FRAME_MASK p) =? CONSEQ_FRAME p.

(** The J1939 identifier of the announced parameter group. *)
Definition bam_can_id (payload : list Z) : result Z :=
  let pgn_hex := join (format_02x <$> reverse (slice_5_8 payload)) in
  pgn ← int16 pgn_hex;
  Ok (Z.lor (Z.lor (Z.shiftl 6 26) (Z.shiftl pgn 8)) 254).

(** [if len(payload_concatenated) > 0:] and its body. *)
Definition flush (base_frame : loc) (s : heap * Locals) : result (heap * Locals) :=
  let '(h, st) := s in
  if 0 <? Z.of_nat (length (payload_concatenated st)) then
    let '(h, new_frame) :=
      construct_new_tp_frame h base_frame (payload_concatenated st) (can_id st) in
    let frame_list' := frame_list st ++ [values_tolist h new_frame] in
    t ← read_frame_timestamp st;
    Ok (h, mkLocals (df_raw_combined st) frame_list'
                    (frame_timestamp_list st ++ [t])
                    (payload_concatenated st) (can_id st) (frame_timestamp st))
  else Ok (h, st).

(** The body of [for index, row in df_raw_filter.iterrows()]. *)
Definition row_body (p : Profile) (bam_id_hex : string) (bam_id : Z)
    (base_frame : loc) (s : heap * Locals) (r : Row) : result (heap * Locals) :=
  let '(index, row) := r in
  let payload := DataBytes row in
  first_byte ← index0 payload;
  let row_id := ID row in
  if is_single p first_byte then
    '(h, new_frame) ← construct_new_tp_frame_without_can_id s.1 base_frame (slice_from 1 payload);
    let st := s.2 in
    Ok (h, mkLocals (df_raw_combined st)
                    (frame_list st ++ [values_tolist h new_frame])
                    (frame_timestamp_list st ++ [index])
                    (payload_concatenated st) (can_id st) (frame_timestamp st))
  else if is_first p bam_id first_byte row_id then
    '(h, st) ← flush base_frame s;
    can_id' ← (if String.eqb bam_id_hex EmptyString then Ok (can_id st)
               else c ← bam_can_id payload; Ok (Some c));
    Ok (h, mkLocals (df_raw_combined st) (frame_list st) (frame_timestamp_list st)
                    (slice_from (first_frame_payload_start p) payload)
                    can_id' (Some index))
  else if is_conseq p first_byte then
    let '(h, st) := s in
    Ok (h, mkLocals (df_raw_combined st) (frame_list st) (frame_timestamp_list st)
                    (payload_concatenated st
                       ++ slice_from (conseq_frame_payload_start p) payload)
                    (can_id st) (frame_timestamp st))
  else Ok s.

(** [bam_id] is 0 for the empty [bam_id_hex] and [int(bam_id_hex, 16)]
    otherwise. *)
Definition bam_id_of (bam_id_hex : string) : result Z :=
  if String.eqb bam_id_hex EmptyString then Ok 0 else int16 bam_id_hex.

(** [pd.DataFrame(frame_list, columns=..., index=frame_timestamp_list)] *)
Definition df_raw_tp (st : Locals) : DataFrame :=
  zip (frame_timestamp_list st) (frame_list st).

(** The body of [for res_id in self.res_id_list].  It reads [self.df_raw],
    the whole table, and not the group of the current channel. *)
Definition res_id_body (self : MultiFrameDecoder) (p : Profile)
    (bam_id_hex : string) (s : heap * Locals) (res_id : Z)
  : result (heap * Locals) :=
  let '(h, st) := s in
  bam_id ← bam_id_of bam_id_hex;
  let df_raw_filter := isin [res_id; bam_id] (df_raw self) in
  match df_raw_filter with
  | [] => Ok s
  | row0 :: _ =>
    let '(h, base_frame) := alloc h row0.2 in
    let st := mkLocals (df_raw_combined st) [] [] [] None (frame_timestamp st) in
    '(h, st) ← for_each (row_body p bam_id_hex bam_id base_frame) df_raw_filter (h, st);
    let df_raw_excl_tp := not_isin (res_id_list self) (df_raw self) in
    Ok (h, mkLocals (df_raw_excl_tp ++ df_raw_tp st)
                    (frame_list st) (frame_timestamp_list st)
                    (payload_concatenated st) (can_id st) (frame_timestamp st))
  end.

(** [combine_tp_frames]: the [return] is the last statement of the body
    of the channel loop, so the first channel group ends the call, and
    with no group at all the method returns [None]. *)
Definition combine_tp_frames (self : MultiFrameDecoder) (p : Profile)
    (bam_id_hex : string) : result (option DataFrame) :=
  let init := mkLocals [] [] [] [] None None in
  match groupby BusChannel (df_raw self) with
  | [] => Ok None
  | (channel, df_raw_channel) :: _ =>
    '(h, st) ← for_each (res_id_body self p bam_id_hex) (res_id_list self) (∅, init);
    Ok (Some (sort_index (df_raw_combined st)))
  end.

(** ** The presets *)

Definition uds_profile : Profile := mkProfile 0xFF 0xF0 0xF0 0x00 0x10 0x20 2 1.
Definition nmea_profile : Profile := mkProfile 0xFF 0x0F 0x00 0xFF 0x00 0x00 0 1.
Definition j1939_profile : Profile := mkProfile 0xFF 0xFF 0x00 0xFF 0x20 0x00 8 1.

Definition combine_tp_frames_uds (self : MultiFrameDecoder) :=
  combine_tp_frames self uds_profile EmptyString.
Definition combine_tp_frames_nmea (self : MultiFrameDecoder) :=
  combine_tp_frames self nmea_profile EmptyString.
Definition combine_tp_frames_j1939 (self : MultiFrameDecoder) (bam_id_hex : string) :=
  combine_tp_frames self j1939_profile bam_id_hex.

(** ** [decode_tp_data]

    [df_decoder.decode_frame] belongs to another library; it is a
    parameter that turns a group of frames into rows of decoded values
    of some type [P], indexed by time stamp.  The method does not read
    [self]. *)
Definition decode_tp_data {P : Type} (decode_frame : DataFrame -> list (Z * P))
    (df_raw_combined : DataFrame) : list (Z * P) :=
  let df_grouped := groupby DataLength df_raw_combined in
  let df_phys :=
    foldl (fun df_phys g => df_phys ++ decode_frame g.2) [] df_grouped in
  sort_index df_phys.

(** ** [setup_fs] *)

(** The two file system classes [setup_fs] builds belong to other
    libraries; the model keeps the constructor that is called and its
    arguments.  [module_dir] is [Path(__file__).parent]. *)
Inductive FileSystem : Type :=
  | S3FileSystem (key secret : string) (client_kwargs : option (gmap string string))
  | LocalFileSystem (base_path : string).

(** [sub in s] for two strings. *)
Fixpoint contains (sub s : string) : bool :=
  String.prefix sub s
  || match s with
     | EmptyString => false
     | String _ s' => contains sub s'
     end.

(** [setup_fs], with the default values of the keyword arguments given
    by the caller. *)
Definition setup_fs (module_dir : string) (s3 : bool)
    (key secret endpoint cert : string) : FileSystem :=
  if s3 then
    if contains "amazonaws" endpoint then S3FileSystem key secret None
    else if negb (String.eqb cert EmptyString) then
      S3FileSystem key secret
        (Some (<["endpoint_url"%string := endpoint]> {["verify"%string := cert]}))
    else
      S3FileSystem key secret (Some {["endpoint_url"%string := endpoint]})
  else LocalFileSystem module_dir.

(** ** Vocabulary of the statements *)

(** A row that the [if]/[elif] chain sends to the first-frame branch. *)
Definition opens_sequence (p : Profile) (bam_id : Z) (r : Row) : Prop :=
  ∃ b, index0 (DataBytes r.2) = Ok b
       ∧ is_single p b = false
       ∧ is_first p bam_id b (ID r.2) = true.

(** A row that the chain sends to the consecutive-frame branch. *)
Definition continues_sequence (p : Profile) (bam_id : Z) (r : Row) : Prop :=
  ∃ b, index0 (DataBytes r.2) = Ok b
       ∧ is_single p b = false
       ∧ is_first p bam_id b (ID r.2) = false
       ∧ is_conseq p b = true.

(** A row that falls through the whole chain. *)
Definition matches_no_tag (p : Profile) (bam_id : Z) (r : Row) : Prop :=
  ∃ b, index0 (DataBytes r.2) = Ok b
       ∧ is_single p b = false
       ∧ is_first p bam_id b (ID r.2) = false
       ∧ is_conseq p b = false.

(** What marks a row built by [construct_new_tp_frame]: a zero DLC, a
    declared length equal to the payload length, and as index the time
    stamp of an input row that went to the first-frame branch. *)
Definition synthesized (self : MultiFrameDecoder) (p : Profile) (bam_id : Z)
    (r : Row) : Prop :=
  DLC r.2 = 0
  ∧ DataLength r.2 = Z.of_nat (length (DataBytes r.2))
  ∧ ∃ r0, r0 ∈ df_raw self ∧ opens_sequence p bam_id r0
          ∧ TimeStamp r0 = TimeStamp r.

(** An input row that reaches the output as it is. *)
Definition passed_through (self : MultiFrameDecoder) (r : Row) : Prop :=
  r ∈ df_raw self ∧ ID r.2 ∉ res_id_list self.

(** The frame [construct_new_tp_frame] leaves in the Series. *)
Definition rebuilt (f : Frame) (payload : list Z) (can_id : option Z) : Frame :=
  mkFrame (BusChannel f)
          (if truthy can_id then default 0 can_id else ID f)
          (IDE f) 0 (Z.of_nat (length payload)) payload.

(** The identifier [(6 << 26) | (0x01FE00 << 8) | 254]. *)
Definition pgn_01FE00_id : Z :=
  Z.lor (Z.lor (Z.shiftl 6 26) (Z.shiftl 0x01FE00 8)) 254.

(** ** Loop invariants *)

(** What holds of the state of the row loop run for one identifier. *)
Definition row_inv (self : MultiFrameDecoder) (p : Profile) (bam_id : Z)
    (base_frame : loc) (s : heap * Locals) : Prop :=
  is_Some (s.1 !! base_frame)
  ∧ length (frame_timestamp_list s.2) = length (frame_list s.2)
  ∧ Forall (synthesized self p bam_id) (df_raw_tp s.2)
  ∧ (∀ t, frame_timestamp s.2 = Some t ->
          ∃ r0, r0 ∈ df_raw self ∧ opens_sequence p bam_id r0 ∧ TimeStamp r0 = t).

(** What holds of the state of the identifier loop. *)
Definition res_inv (self : MultiFrameDecoder) (p : Profile) (bam_id : Z)
    (s : heap * Locals) : Prop :=
  (∀ r, r ∈ df_raw_combined s.2 -> passed_through self r ∨ synthesized self p bam_id r)
  ∧ (∀ t, frame_timestamp s.2 = Some t ->
          ∃ r0, r0 ∈ df_raw self ∧ opens_sequence p bam_id r0 ∧ TimeStamp r0 = t).

(** The table built so far holds the pass-through rows. *)
Definition merged (self : MultiFrameDecoder) (s : heap * Locals) : Prop :=
  ∃ tp, df_raw_combined s.2 = not_isin (res_id_list self) (df_raw self) ++ tp.

(** ** Updates of the locals *)

(** A consecutive frame extends the accumulator. *)
Definition add_payload (st : Locals) (bytes : list Z) : Locals :=
  mkLocals (df_raw_combined st) (frame_list st) (frame_timestamp_list st)
           (payload_concatenated st ++ bytes) (can_id st) (frame_timestamp st).

(** A flush appends one frame and its time stamp. *)
Definition emit (st : Locals) (t : Z) (f : Frame) : Locals :=
  mkLocals (df_raw_combined st) (frame_list st ++ [f])
           (frame_timestamp_list st ++ [t])
           (payload_concatenated st) (can_id st) (frame_timestamp st).

(** A first frame restarts the accumulator. *)
Definition open_sequence (p : Profile) (st : Locals) (index : Z)
    (payload : list Z) (cid : option Z) : Locals :=
  mkLocals (df_raw_combined st) (frame_list st) (frame_timestamp_list st)
           (slice_from (first_frame_payload_start p) payload) cid (Some index).

(** The bytes a run of consecutive frames adds to the accumulator. *)
Definition conseq_bytes (p : Profile) (rows : DataFrame) : list Z :=
  concat ((fun r : Row => slice_from (conseq_frame_payload_start p) (DataBytes r.2))
            <$> rows).

(** ** Sample frames and claims under test *)

(** A raw frame on channel 1 whose DLC and declared length agree with
    its payload. *)
Definition raw (id : Z) (payload : list Z) : Frame :=
  mkFrame 1 id false (Z.of_nat (length payload)) (Z.of_nat (length payload))
          payload.

Definition high_nibble (b : Z) : Z := Z.shiftr b 4.

(** The reading of [construct_new_tp_frame] as a copy: the template is
    the same afterwards and the result is another object. *)
Definition copies_template (h : heap) (base_frame : loc) (payload : list Z)
    (cid : option Z) : Prop :=
  let '(h', new_frame) := construct_new_tp_frame h base_frame payload cid in
  h' !! base_frame = h !! base_frame
  ∧ new_frame ≠ base_frame
  ∧ h' !! new_frame = (fun f => rebuilt f payload cid) <$> (h !! base_frame).

(** A flow-control frame of the watched identifier [0x7E8] and a frame of
    another identifier. *)
Definition uds_unmatched_table : DataFrame :=
  [(1, raw 0x7E8 [0x30; 0x00; 0x00]); (2, raw 0x123 [0x01; 0x02; 0x03])].

(** Frames of the watched identifier [0x7E8] between frames of
    identifier 0. *)
Definition uds_id0_table : DataFrame :=
  [(1, raw 0x7E8 [0x10; 0x05; 0x01; 0x02]); (2, raw 0 [0x01; 0x00]);
   (3, raw 0x7E8 [0x21; 0x03; 0x04; 0x05]); (4, raw 0 [0x01; 0x00])].

(** A J1939 announce frame for PGN [0x01FE00] and two data frames. *)
Definition bam_announce : Frame :=
  raw 0x1CECFF00 [0x20; 0x09; 0x00; 0x02; 0xFF; 0x00; 0xFE; 0x01].
Definition bam_data_1 : Frame :=
  raw 0x1CEBFF00 [0x01; 0x01; 0x02; 0x03; 0x04; 0x05; 0x06; 0x07].
Definition bam_data_2 : Frame :=
  raw 0x1CEBFF00 [0x02; 0x08; 0x09; 0xFF; 0xFF; 0xFF; 0xFF; 0xFF].
Definition j1939_table : DataFrame :=
  [(1, bam_announce); (2, bam_data_1); (3, bam_data_2)].

(** The state of the row loop before the announce frame, and after a
    second announce frame at time 4 has flushed the two data frames. *)
Definition j1939_frame : Frame :=
  mkFrame 1 pgn_01FE00_id false 0 14
          [0x01; 0x02; 0x03; 0x04; 0x05; 0x06; 0x07;
           0x08; 0x09; 0xFF; 0xFF; 0xFF; 0xFF; 0xFF].
Definition j1939_start : heap * Locals :=
  ({[ 0%nat := bam_announce ]}, mkLocals [] [] [] [] None None).
Definition j1939_end : heap * Locals :=
  ({[ 0%nat := j1939_frame ]},
   mkLocals [] [j1939_frame] [1] [] (Some pgn_01FE00_id) (Some 4)).

(** The output of the ISO-TP preset on [uds_id0_table]. *)
Definition uds_id0_frame : Frame := mkFrame 1 0x7E8 false 0 3 [0x03; 0x04; 0x05].
Definition uds_id0_output : DataFrame :=
  [(2, raw 0 [0x01; 0x00]); (2, uds_id0_frame); (4, raw 0 [0x01; 0x00])].

(** Two J1939 sequences, one per watched identifier, and the frame the
    first one is flushed into. *)
Definition two_id_table : DataFrame :=
  [(1, bam_announce); (2, bam_data_1); (3, bam_announce);
   (4, raw 0x1CEBFE00 [0x01; 0x0A; 0x0B]); (5, bam_announce)].
Definition two_id_first_frame : Frame :=
  mkFrame 1 pgn_01FE00_id false 0 7 [0x01; 0x02; 0x03; 0x04; 0x05; 0x06; 0x07].

(** The reading under which no row of the output carries a target
    identifier. *)
Definition no_target_id_in_output (self : MultiFrameDecoder) (p : Profile)
    (bam_id_hex : string) : Prop :=
  ∀ out r, combine_tp_frames self p bam_id_hex = Ok (Some out) ->
           r ∈ out -> ID r.2 ∉ res_id_list self.

(** The reading under which a row of a watched identifier that matches
    no tag reaches the output. *)
Definition passes_unmatched_rows (self : MultiFrameDecoder) (p : Profile)
    (bam_id_hex : string) : Prop :=
  ∀ bam_id r, bam_id_of bam_id_hex = Ok bam_id ->
              r ∈ df_raw self -> ID r.2 ∈ res_id_list self ->
              matches_no_tag p bam_id r ->
              ∃ out, combine_tp_frames self p bam_id_hex = Ok (Some out) ∧ r ∈ out.

(** The reading under which the single-frame tag is tested against the
    high nibble. *)
Definition single_by_high_nibble (p : Profile) : Prop :=
  ∀ b, 0 <= b < 256 -> high_nibble b = 0 -> is_single p b = true.

(** The two byte tests of the ISO-TP preset against their closed forms. *)
Definition uds_tests_agree (b : Z) : bool :=
  Bool.eqb (is_single uds_profile b) (b =? 0)
  && Bool.eqb (is_conseq uds_profile b) (high_nibble b =? 2).

(** ** Definitions for the further properties *)

(** The hexadecimal digit of value [n], as a character and as the head of
    a digit sequence. *)
Definition digit_char (n : Z) : ascii :=
  match n with
  | 0 => "0" | 1 => "1" | 2 => "2" | 3 => "3" | 4 => "4" | 5 => "5"
  | 6 => "6" | 7 => "7" | 8 => "8" | 9 => "9" | 10 => "a" | 11 => "b"
  | 12 => "c" | 13 => "d" | 14 => "e" | _ => "f"
  end%char.

Definition hexdigit (n : Z) (d : Hexadecimal.uint) : Hexadecimal.uint :=
  match n with
  | 0 => Hexadecimal.D0 d | 1 => Hexadecimal.D1 d | 2 => Hexadecimal.D2 d
  | 3 => Hexadecimal.D3 d | 4 => Hexadecimal.D4 d | 5 => Hexadecimal.D5 d
  | 6 => Hexadecimal.D6 d | 7 => Hexadecimal.D7 d | 8 => Hexadecimal.D8 d
  | 9 => Hexadecimal.D9 d | 10 => Hexadecimal.Da d | 11 => Hexadecimal.Db d
  | 12 => Hexadecimal.Dc d | 13 => Hexadecimal.Dd d | 14 => Hexadecimal.De d
  | _ => Hexadecimal.Df d
  end.

Definition byte_digits (b : Z) (d : Hexadecimal.uint) : Hexadecimal.uint :=
  hexdigit (b / 16) (hexdigit (b mod 16) d).

Definition is_byte (b : Z) : Prop := 0 <= b < 256.

(** The number whose base-256 digits, most significant first, are [bs]. *)
Definition be_value (bs : list Z) : Z := foldl (fun v b => v * 256 + b) 0 bs.

Definition format_02x_two_digits (b : Z) : bool :=
  String.eqb (format_02x b)
             (String (digit_char (b / 16)) (String (digit_char (b mod 16)) EmptyString)).

(** The identifier built from a parameter group number. *)
Definition pgn_can_id (pgn : Z) : Z :=
  Z.lor (Z.lor (Z.shiftl 6 26) (Z.shiftl pgn 8)) 254.

(** Two profiles that differ at most in the first-frame mask and tag. *)
Definition agree_but_first_tag (p p' : Profile) : Prop :=
  SINGLE_FRAME_MASK p = SINGLE_FRAME_MASK p'
  ∧ SINGLE_FRAME p = SINGLE_FRAME p'
  ∧ CONSEQ_FRAME_MASK p = CONSEQ_FRAME_MASK p'
  ∧ CONSEQ_FRAME p = CONSEQ_FRAME p'
  ∧ first_frame_payload_start p = first_frame_payload_start p'
  ∧ conseq_frame_payload_start p = conseq_frame_payload_start p'.

(** What one identifier adds: nothing when it has no row, and otherwise
    the pass-through rows followed by its synthesized frames. *)
Definition merged_with (self : MultiFrameDecoder) (p : Profile) (bam_id : Z)
    (s : heap * Locals) : Prop :=
  ∃ tp, df_raw_combined s.2 = not_isin (res_id_list self) (df_raw self) ++ tp
        ∧ Forall (synthesized self p bam_id) tp
        ∧ (length tp <= length (isin [bam_id] (df_raw self)))%nat.

Definition from_template (bam_id_hex : string) (f0 f : Frame) : Prop :=
  BusChannel f = BusChannel f0 ∧ IDE f = IDE f0
  ∧ (bam_id_hex = EmptyString -> ID f = ID f0).

Definition tmpl_inv (bam_id_hex : string) (f0 : Frame) (base_frame : loc)
    (s : heap * Locals) : Prop :=
  (∃ f, s.1 !! base_frame = Some f ∧ from_template bam_id_hex f0 f)
  ∧ (bam_id_hex = EmptyString -> can_id s.2 = None)
  ∧ Forall (from_template bam_id_hex f0) (frame_list s.2).

Definition tmpl_res_inv (self : MultiFrameDecoder) (bam_id_hex : string) (bam_id : Z)
    (s : heap * Locals) : Prop :=
  ∀ r, r ∈ df_raw_combined s.2 ->
    passed_through self r
    ∨ ∃ res_id row0 rest,
        res_id ∈ res_id_list self
        ∧ isin [res_id; bam_id] (df_raw self) = row0 :: rest
        ∧ from_template bam_id_hex row0.2 r.2.

(** The frame [f] flushed with index [t] has the identifier rebuilt from
    an announce row of index [t], or still that of the template [f0]. *)
Definition id_announced (self : MultiFrameDecoder) (bam_id : Z) (f0 : Frame)
    (r : Row) : Prop :=
  (∃ r0, r0 ∈ df_raw self ∧ ID r0.2 = bam_id ∧ TimeStamp r0 = TimeStamp r
         ∧ bam_can_id (DataBytes r0.2) = Ok (ID r.2))
  ∨ ID r.2 = ID f0.

Definition announced_inv (self : MultiFrameDecoder) (bam_id : Z) (f0 : Frame)
    (base_frame : loc) (s : heap * Locals) : Prop :=
  (∃ f, s.1 !! base_frame = Some f ∧ (can_id s.2 = None -> ID f = ID f0))
  ∧ length (frame_timestamp_list s.2) = length (frame_list s.2)
  ∧ (∀ c, can_id s.2 = Some c ->
          ∃ r0, r0 ∈ df_raw self ∧ ID r0.2 = bam_id
                ∧ frame_timestamp s.2 = Some (TimeStamp r0)
                ∧ bam_can_id (DataBytes r0.2) = Ok c)
  ∧ Forall (id_announced self bam_id f0) (df_raw_tp s.2).

Definition announced_res_inv (self : MultiFrameDecoder) (bam_id : Z)
    (s : heap * Locals) : Prop :=
  ∀ r, r ∈ df_raw_combined s.2 ->
    passed_through self r
    ∨ ∃ res_id row0 rest,
        res_id ∈ res_id_list self
        ∧ isin [res_id; bam_id] (df_raw self) = row0 :: rest
        ∧ id_announced self bam_id row0.2 r.

(** A row the loop can handle: a non-empty payload that is not a single
    frame and, for a row that carries [bam_id] under a non-empty
    [bam_id_hex], a payload of at least six bytes. *)
Definition row_ok (p : Profile) (bam_id_hex : string) (bam_id : Z) (r : Row) : Prop :=
  ∃ b, index0 (DataBytes r.2) = Ok b
       ∧ is_single p b = false
       ∧ (ID r.2 = bam_id ->
          bam_id_hex = EmptyString
          ∨ ((5 < length (DataBytes r.2))%nat ∧ Forall is_byte (DataBytes r.2))).

(** The state and the rows ahead are such that no flush can meet an
    unbound [frame_timestamp]. *)
Definition flush_safe (bam_id : Z) (st : Locals) (rows : DataFrame) : Prop :=
  is_Some (frame_timestamp st)
  ∨ (∀ r, r ∈ rows -> ID r.2 ≠ bam_id)
  ∨ (payload_concatenated st = [] ∧ ∃ r rest, rows = r :: rest ∧ ID r.2 = bam_id).

(** The bytes of a sequence: those of its first frame from the first-frame
    offset on, then those of its consecutive frames. *)
Definition sequence_bytes (p : Profile) (first : Row) (datas : DataFrame) : list Z :=
  slice_from (first_frame_payload_start p) (DataBytes first.2) ++ conseq_bytes p datas.

Definition later_id (c1 c2 : option Z) : option Z := if truthy c2 then c2 else c1.

(** A profile that differs from the ISO-TP preset in the first-frame mask
    and tag only. *)
Definition uds_other_first_tag : Profile :=
  mkProfile 0xFF 0x00 0xF0 0x00 0xAB 0x20 2 1.

(** A first frame and a consecutive frame of the watched identifier
    [0x7E8], and a frame of another identifier. *)
Definition uds_plain_table : DataFrame :=
  [(1, raw 0x7E8 [0x10; 0x05; 0x01; 0x02]);
   (2, raw 0x7E8 [0x21; 0x03; 0x04; 0x05]);
   (3, raw 0x123 [0x01; 0x02; 0x03])].

(** The state of the row loop after two announce frames with nothing in
    between. *)
Definition j1939_idle : heap * Locals :=
  ({[ 0%nat := bam_announce ]},
   mkLocals [] [] [] [] (Some pgn_01FE00_id) (Some 4)).

(** ** Sequences of a filtered table *)

(** The bytes the consecutive-frame branch takes from a row, none when
    the row does not pass its test. *)
Definition conseq_part (p : Profile) (r : Row) : list Z :=
  match DataBytes r.2 with
  | b :: _ =>
    if is_conseq p b
    then slice_from (conseq_frame_payload_start p) (DataBytes r.2)
    else []
  | [] => []
  end.

(** The bytes of the sequence [first] opens: those of [first] from the
    first-frame offset on, then what each later row adds. *)
Definition gathered_bytes (p : Profile) (first : Row) (datas : DataFrame) : list Z :=
  slice_from (first_frame_payload_start p) (DataBytes first.2)
  ++ concat (conseq_part p <$> datas).

(** [first] and [datas] are a sequence of [rows]: [first] goes to the
    first-frame branch and [datas] are the rows after it, up to the next
    row that goes to that branch (the sequence is [closed]) or up to the
    end of the table. *)
Definition sequence_of (p : Profile) (bam_id : Z) (rows : DataFrame)
    (first : Row) (datas : DataFrame) (closed : bool) : Prop :=
  opens_sequence p bam_id first
  ∧ Forall (fun r => ¬ opens_sequence p bam_id r) datas
  ∧ ∃ pre post,
      rows = pre ++ first :: datas ++ post
      ∧ if closed
        then ∃ next rest, post = next :: rest ∧ opens_sequence p bam_id next
        else post = [].

(** The frame of a sequence: the gathered bytes under the time stamp of
    the first frame, the channel and the IDE flag of the template, and
    the identifier of the template or, under a broadcast id, the one
    computed from the first frame. *)
Definition sequence_frame (p : Profile) (bam_id_hex : string) (template : Frame)
    (first : Row) (datas : DataFrame) : result Row :=
  id ← (if String.eqb bam_id_hex EmptyString then Ok (ID template)
        else bam_can_id (DataBytes first.2));
  let payload := gathered_bytes p first datas in
  Ok (TimeStamp first,
      mkFrame (BusChannel template) id (IDE template) 0
              (Z.of_nat (length payload)) payload).

(** What holds of the row loop of one identifier after the rows [done],
    when it started with empty lists and with [frame_timestamp] equal to
    [ts0]. *)
Definition seq_inv (p : Profile) (bam_id_hex : string) (bam_id : Z)
    (template : Frame) (base_frame : loc) (ts0 : option Z)
    (done : DataFrame) (s : heap * Locals) : Prop :=
  (∃ f, s.1 !! base_frame = Some f
        ∧ BusChannel f = BusChannel template ∧ IDE f = IDE template
        ∧ (bam_id_hex = EmptyString -> ID f = ID template))
  ∧ length (frame_timestamp_list s.2) = length (frame_list s.2)
  ∧ (bam_id_hex = EmptyString -> can_id s.2 = None)
  ∧ ((Forall (fun r => ¬ opens_sequence p bam_id r) done
      ∧ frame_timestamp s.2 = ts0 ∧ can_id s.2 = None ∧ frame_list s.2 = [])
     ∨ (∃ pre first datas,
          done = pre ++ first :: datas
          ∧ opens_sequence p bam_id first
          ∧ Forall (fun r => ¬ opens_sequence p bam_id r) datas
          ∧ frame_timestamp s.2 = Some (TimeStamp first)
          ∧ payload_concatenated s.2 = gathered_bytes p first datas
          ∧ (bam_id_hex ≠ EmptyString ->
             ∃ c, bam_can_id (DataBytes first.2) = Ok c ∧ can_id s.2 = Some c)))
  ∧ (ts0 = None ->
     ∀ r, r ∈ df_raw_tp s.2 ->
       ∃ first datas, sequence_of p bam_id done first datas true
                      ∧ sequence_frame p bam_id_hex template first datas = Ok r)
  ∧ (∀ first datas,
       sequence_of p bam_id done first datas true ->
       gathered_bytes p first datas ≠ [] ->
       ∃ r, sequence_frame p bam_id_hex template first datas = Ok r
            ∧ r ∈ df_raw_tp s.2).

(** The J1939 sample table closed by a second announce frame, and the
    output of the J1939 preset on it. *)
Definition j1939_closed_table : DataFrame := j1939_table ++ [(4, bam_announce)].
Definition j1939_closed_output : DataFrame :=
  [(1, bam_announce); (1, j1939_frame); (4, bam_announce)].

(** The two halves of [uds_id0_table] and a flow-control frame of the
    watched identifier [0x7E8] to put between them. *)
Definition uds_id0_head : DataFrame :=
  [(1, raw 0x7E8 [0x10; 0x05; 0x01; 0x02]); (2, raw 0 [0x01; 0x00])].
Definition uds_id0_tail : DataFrame :=
  [(3, raw 0x7E8 [0x21; 0x03; 0x04; 0x05]); (4, raw 0 [0x01; 0x00])].
Definition uds_flow_control : Row := (3, raw 0x7E8 [0x30; 0x00; 0x00]).

(** ** The error monad *)

Lemma bind_Ok {A B : Type} (m : result A) (f : A -> result B) (b : B) :
  m ≫= f = Ok b -> ∃ a, m = Ok a ∧ f a = Ok b.
Proof. destruct m as [a|e]; simpl; [eauto | discriminate]. Qed.

Tactic Notation "inv_bind" hyp(H) :=
  let a := fresh "a" in
  let Ha := fresh "Ha" in
  apply bind_Ok in H; destruct H as (a & Ha & H).

Tactic Notation "inv_bind" hyp(H) "as" simple_intropattern(a) ident(Ha) :=
  apply bind_Ok in H; destruct H as (a & Ha & H).

(** Membership in a list written out. *)
Ltac in_list := first [apply list_elem_of_here | apply list_elem_of_further; in_list].

Lemma for_each_app {S A : Type} (body : S -> A -> result S) (l1 l2 : list A) (s : S) :
  for_each body (l1 ++ l2) s = for_each body l1 s ≫= for_each body l2.
Proof.
  revert s. induction l1 as [|x l1 IH]; intros s; simpl; [reflexivity|].
  destruct (body s x) as [s'|e]; simpl; [apply IH | reflexivity].
Qed.

(** Loop invariants: a property of the state that every iteration on an
    element satisfying [Q] keeps holds when the loop ends normally. *)
Lemma for_each_inv {S A : Type} (I : S -> Prop) (Q : A -> Prop)
    (body : S -> A -> result S) (l : list A) :
  (∀ s x s', Q x -> I s -> body s x = Ok s' -> I s') ->
  Forall Q l -> ∀ s s', I s -> for_each body l s = Ok s' -> I s'.
Proof.
  intros Hstep HQ. induction HQ as [|x l Hx _ IH]; intros s s' Hs Hrun; simpl in Hrun.
  - congruence.
  - inv_bind Hrun. eauto.
Qed.

Lemma for_each_skip {S A : Type} (body : S -> A -> result S) (l : list A) (s : S) :
  (∀ x, x ∈ l -> body s x = Ok s) -> for_each body l s = Ok s.
Proof.
  induction l as [|x l IH]; intros H; [reflexivity|].
  cbn. rewrite H by left. cbn. apply IH. intros y Hy. apply H. right. exact Hy.
Qed.

(** The decoders of the samples, as [__init__] builds them. *)
Example init_7E8 (df : DataFrame) : init df ["7E8"%string] = Ok (mkDecoder df [0x7E8]).
Proof. reflexivity. Qed.

Example init_1CEBFF00 (df : DataFrame) :
  init df ["1CEBFF00"%string] = Ok (mkDecoder df [0x1CEBFF00]).
Proof. reflexivity. Qed.

(** ** [construct_new_tp_frame] on an allocated template *)

Lemma construct_new_tp_frame_at (h : heap) (base_frame : loc) (f : Frame)
    (payload : list Z) (cid : option Z) :
  h !! base_frame = Some f ->
  construct_new_tp_frame h base_frame payload cid
  = (<[base_frame := rebuilt f payload cid]> h, base_frame).
Proof.
  intros Hf. unfold construct_new_tp_frame, at_set, rebuilt. cbv zeta. f_equal.
  apply map_eq. intros l. destruct (decide (l = base_frame)) as [->|Hne].
  - rewrite lookup_insert_eq. destruct (truthy cid).
    + rewrite !lookup_alter_eq, Hf. reflexivity.
    + rewrite !lookup_alter_eq, Hf. reflexivity.
  - rewrite lookup_insert_ne by congruence. destruct (truthy cid).
    + rewrite !lookup_alter_ne by congruence. reflexivity.
    + rewrite !lookup_alter_ne by congruence. reflexivity.
Qed.

(** ** Filters and groups *)

Lemma isin_cons_in (ids : list Z) (r : Row) (df : DataFrame) :
  ID r.2 ∈ ids -> isin ids (r :: df) = r :: isin ids df.
Proof. intros H. unfold isin. rewrite filter_cons. rewrite decide_True by exact H. reflexivity. Qed.

Lemma isin_cons_notin (ids : list Z) (r : Row) (df : DataFrame) :
  ID r.2 ∉ ids -> isin ids (r :: df) = isin ids df.
Proof. intros H. unfold isin. rewrite filter_cons. rewrite decide_False by exact H. reflexivity. Qed.

Lemma not_isin_cons_in (ids : list Z) (r : Row) (df : DataFrame) :
  ID r.2 ∈ ids -> not_isin ids (r :: df) = not_isin ids df.
Proof.
  intros H. unfold not_isin. rewrite filter_cons.
  rewrite decide_False by (intros Hn; exact (Hn H)). reflexivity.
Qed.

Lemma elem_of_isin (ids : list Z) (df : DataFrame) (r : Row) :
  r ∈ isin ids df <-> r ∈ df ∧ ID r.2 ∈ ids.
Proof. unfold isin. rewrite list_elem_of_filter. tauto. Qed.

Lemma elem_of_not_isin (ids : list Z) (df : DataFrame) (r : Row) :
  r ∈ not_isin ids df <-> r ∈ df ∧ ID r.2 ∉ ids.
Proof. unfold not_isin. rewrite list_elem_of_filter. tauto. Qed.

Lemma isin_none (ids : list Z) (df : DataFrame) :
  (∀ r, r ∈ df -> ID r.2 ∉ ids) -> isin ids df = [].
Proof.
  intros H. induction df as [|r df IH]; [reflexivity|].
  rewrite isin_cons_notin by (apply H; left).
  apply IH. intros r' Hr'. apply H. right. exact Hr'.
Qed.

(** A table with a row has a channel group. *)
Lemma groupby_cons (col : Frame -> Z) (r : Row) (df : DataFrame) :
  ∃ g gs, groupby col (r :: df) = g :: gs.
Proof.
  unfold groupby.
  destruct (merge_sort Z.le (remove_dups (col <$> (snd <$> r :: df)))) as [|k ks] eqn:E.
  - assert (Hin : col r.2 ∈ merge_sort Z.le (remove_dups (col <$> (snd <$> r :: df)))).
    { rewrite merge_sort_Permutation. apply elem_of_remove_dups. left. }
    rewrite E in Hin. inversion Hin.
  - simpl. eauto.
Qed.

(** ** Sorting by time stamp *)

Lemma insert_by_index_perm {A : Type} (r : Z * A) (df : list (Z * A)) :
  insert_by_index r df ≡ₚ r :: df.
Proof.
  induction df as [|x df IH]; cbn; [reflexivity|].
  destruct (decide (ts_le r x)); [reflexivity|].
  rewrite IH. apply Permutation_swap.
Qed.

Lemma sort_index_perm {A : Type} (df : list (Z * A)) : sort_index df ≡ₚ df.
Proof.
  induction df as [|r df IH]; cbn; [reflexivity|].
  rewrite insert_by_index_perm, IH. reflexivity.
Qed.

Lemma insert_by_index_sorted {A : Type} (r : Z * A) (df : list (Z * A)) :
  StronglySorted ts_le df -> StronglySorted ts_le (insert_by_index r df).
Proof.
  induction 1 as [|x df Hdf IH Hx]; cbn.
  - repeat constructor.
  - destruct (decide (ts_le r x)) as [Hrx|Hrx].
    + constructor; [constructor; assumption|].
      constructor; [exact Hrx|].
      eapply Forall_impl; [exact Hx|]. intros y Hxy.
      unfold ts_le in *. lia.
    + constructor; [exact IH|].
      rewrite insert_by_index_perm. constructor; [|exact Hx].
      unfold ts_le in *. lia.
Qed.

Lemma sort_index_sorted {A : Type} (df : list (Z * A)) :
  StronglySorted Z.le (fst <$> sort_index df).
Proof.
  apply (StronglySorted_fmap fst (@ts_le A) Z.le).
  - intros x y Hxy. exact Hxy.
  - induction df as [|r df IH]; cbn; [constructor|].
    apply insert_by_index_sorted. exact IH.
Qed.

Lemma elem_of_sort_index {A : Type} (df : list (Z * A)) (r : Z * A) :
  r ∈ sort_index df <-> r ∈ df.
Proof. rewrite sort_index_perm. reflexivity. Qed.

(** ** The first-frame test

    Because the chained comparison ends in a test against the empty
    string, its tag part is never true: a row is a first frame exactly
    when it carries [bam_id]. *)
Lemma is_first_by_id (p : Profile) (bam_id b row_id : Z) :
  is_first p bam_id b row_id = (bam_id =? row_id).
Proof. unfold is_first, int_eq_str. rewrite andb_false_r. reflexivity. Qed.

(** A single frame stops the row loop with [TypeError]. *)
Lemma row_body_single (p : Profile) (bam_id_hex : string) (bam_id : Z)
    (base_frame : loc) (s : heap * Locals) (index : Z) (row : Frame) (b : Z) :
  index0 (DataBytes row) = Ok b -> is_single p b = true ->
  row_body p bam_id_hex bam_id base_frame s (index, row) = Raise TypeError.
Proof. intros Hb Hs. unfold row_body. rewrite Hb. simpl. rewrite Hs. reflexivity. Qed.

(** ** The branches of the row loop *)

Lemma add_payload_nil st : add_payload st [] = st.
Proof. destruct st. unfold add_payload. simpl. rewrite app_nil_r. reflexivity. Qed.

Lemma add_payload_app st l1 l2 : add_payload (add_payload st l1) l2 = add_payload st (l1 ++ l2).
Proof. unfold add_payload. simpl. rewrite app_assoc. reflexivity. Qed.

Lemma row_body_conseq p bam_id_hex bam_id base_frame h st (r : Row) :
  continues_sequence p bam_id r ->
  row_body p bam_id_hex bam_id base_frame (h, st) r
  = Ok (h, add_payload st (slice_from (conseq_frame_payload_start p) (DataBytes r.2))).
Proof.
  intros (b & Hb & Hs & Hf & Hc). destruct r as [index row]. simpl in *.
  unfold row_body. rewrite Hb. simpl. rewrite Hs, Hf, Hc. reflexivity.
Qed.

Lemma for_each_conseq p bam_id_hex bam_id base_frame (rows : DataFrame) : forall h st,
  Forall (continues_sequence p bam_id) rows ->
  for_each (row_body p bam_id_hex bam_id base_frame) rows (h, st)
  = Ok (h, add_payload st (conseq_bytes p rows)).
Proof.
  induction rows as [|r rows IH]; intros h st Hall.
  - simpl. rewrite add_payload_nil. reflexivity.
  - inversion Hall as [|? ? Hr Hrows]; subst. simpl.
    rewrite (row_body_conseq _ _ _ _ _ _ _ Hr). simpl.
    rewrite IH by exact Hrows. rewrite add_payload_app. reflexivity.
Qed.

Lemma flush_empty base_frame h st :
  payload_concatenated st = [] -> flush base_frame (h, st) = Ok (h, st).
Proof. intros E. unfold flush. rewrite E. reflexivity. Qed.

Lemma flush_nonempty base_frame h st f :
  payload_concatenated st <> [] -> h !! base_frame = Some f ->
  flush base_frame (h, st)
  = t ← read_frame_timestamp st;
    Ok (<[base_frame := rebuilt f (payload_concatenated st) (can_id st)]> h,
        emit st t (rebuilt f (payload_concatenated st) (can_id st))).
Proof.
  intros Hne Hf. unfold flush.
  assert (Hlen : (0 <? Z.of_nat (length (payload_concatenated st))) = true).
  { apply Z.ltb_lt. destruct (payload_concatenated st); [congruence | simpl; lia]. }
  rewrite Hlen.
  rewrite (construct_new_tp_frame_at _ _ _ _ _ Hf).
  unfold values_tolist. rewrite lookup_total_insert_eq. reflexivity.
Qed.

Lemma row_body_first p bam_id_hex bam_id base_frame s (r : Row) :
  opens_sequence p bam_id r ->
  row_body p bam_id_hex bam_id base_frame s r
  = '(h, st) ← flush base_frame s;
    cid ← (if String.eqb bam_id_hex EmptyString then Ok (can_id st)
           else c ← bam_can_id (DataBytes r.2); Ok (Some c));
    Ok (h, open_sequence p st r.1 (DataBytes r.2) cid).
Proof.
  intros (b & Hb & Hs & Hf). destruct r as [index row]. simpl in *.
  unfold row_body. rewrite Hb. simpl. rewrite Hs, Hf. reflexivity.
Qed.

Lemma isin_all (ids : list Z) (df : DataFrame) :
  (∀ r, r ∈ df -> ID r.2 ∈ ids) -> isin ids df = df.
Proof.
  intros H. induction df as [|r df IH]; [reflexivity|].
  rewrite isin_cons_in by (apply H; left).
  f_equal. apply IH. intros r' Hr'. apply H. right. exact Hr'.
Qed.

Lemma opens_sequence_id p bam_id (r : Row) :
  opens_sequence p bam_id r -> ID r.2 = bam_id.
Proof.
  intros (b & _ & _ & Hf). rewrite is_first_by_id in Hf.
  apply Z.eqb_eq in Hf. congruence.
Qed.

Lemma flush_is_Some base_frame (s s' : heap * Locals) :
  flush base_frame s = Ok s' -> is_Some (s.1 !! base_frame) -> is_Some (s'.1 !! base_frame).
Proof.
  destruct s as [h st]. intros Hfl [f Hf]. cbn [fst] in Hf.
  destruct (payload_concatenated st) as [|x l] eqn:E.
  - rewrite flush_empty in Hfl by exact E. inversion Hfl; subst. simpl. eauto.
  - rewrite (flush_nonempty _ _ _ f) in Hfl by congruence.
    inv_bind Hfl. inversion Hfl; subst. simpl. rewrite lookup_insert_eq. eauto.
Qed.


(** ** The invariants hold *)

Lemma row_body_inv self p bam_id_hex bam_id base_frame (s s' : heap * Locals) (r : Row) :
  r ∈ df_raw self ->
  row_inv self p bam_id base_frame s ->
  row_body p bam_id_hex bam_id base_frame s r = Ok s' ->
  row_inv self p bam_id base_frame s'.
Proof.
  intros Hr Hinv Hstep. destruct s as [h st].
  destruct (index0 (DataBytes r.2)) as [b|e] eqn:Hb.
  2:{ destruct r as [index row]. unfold row_body in Hstep. cbn [snd] in Hb.
      rewrite Hb in Hstep. discriminate. }
  destruct (is_single p b) eqn:Hs.
  { destruct r as [index row]. rewrite (row_body_single _ _ _ _ _ _ _ b) in Hstep by assumption.
    discriminate. }
  destruct (is_first p bam_id b (ID r.2)) eqn:Hf.
  - assert (Hopen : opens_sequence p bam_id r) by (exists b; auto).
    rewrite (row_body_first _ _ _ _ _ _ Hopen) in Hstep.
    inv_bind Hstep as [h1 st1] Hflush. inv_bind Hstep as cid Hcid.
    inversion Hstep; subst s'; clear Hstep.
    destruct Hinv as (Hbase & Hlen & Htp & Hts). cbn [fst snd] in *.
    assert (Hfl : is_Some (h1 !! base_frame)
                  ∧ length (frame_timestamp_list st1) = length (frame_list st1)
                  ∧ Forall (synthesized self p bam_id) (df_raw_tp st1)).
    { destruct (payload_concatenated st) as [|x l] eqn:E.
      - rewrite flush_empty in Hflush by exact E. inversion Hflush; subst. auto.
      - destruct Hbase as [f0 Hf0].
        rewrite (flush_nonempty _ _ _ f0) in Hflush by congruence.
        inv_bind Hflush as t Ht. inversion Hflush; subst h1 st1; clear Hflush.
        unfold read_frame_timestamp in Ht.
        destruct (frame_timestamp st) as [t'|] eqn:Et; [|discriminate].
        inversion Ht; subst t'; clear Ht.
        split; [rewrite lookup_insert_eq; eauto|].
        split; [cbn; rewrite !length_app; cbn; lia|].
        unfold df_raw_tp, emit. cbn [frame_list frame_timestamp_list].
        rewrite (zip_with_app pair _ [t] _ [rebuilt f0 (payload_concatenated st) (can_id st)] Hlen).
        apply Forall_app. split; [exact Htp|].
        constructor; [|constructor].
        unfold synthesized, rebuilt. cbn. rewrite E. repeat split.
        destruct (Hts t eq_refl) as (r0 & Hr0 & Hop & Hr0t). eauto. }
    destruct Hfl as (Hbase1 & Hlen1 & Htp1).
    unfold row_inv, open_sequence. cbn.
    repeat split; try assumption.
    intros t [= <-]. exists r. auto.
  - destruct (is_conseq p b) eqn:Hc.
    + assert (Hcont : continues_sequence p bam_id r) by (exists b; auto).
      rewrite (row_body_conseq _ _ _ _ _ _ _ Hcont) in Hstep.
      inversion Hstep; subst s'. exact Hinv.
    + destruct r as [index row]. unfold row_body in Hstep. cbn [snd] in *.
      rewrite Hb in Hstep. cbn [mbind result_bind] in Hstep.
      rewrite Hs, Hf, Hc in Hstep. inversion Hstep; subst s'. exact Hinv.
Qed.

Lemma alloc_lookup (h : heap) (f : Frame) :
  (alloc h f).1 !! (alloc h f).2 = Some f.
Proof. unfold alloc. cbn. apply lookup_insert_eq. Qed.

Lemma res_id_body_inv self p bam_id_hex bam_id (s s' : heap * Locals) (res_id : Z) :
  bam_id_of bam_id_hex = Ok bam_id ->
  res_inv self p bam_id s ->
  res_id_body self p bam_id_hex s res_id = Ok s' ->
  res_inv self p bam_id s'.
Proof.
  intros Hbam Hinv Hbody. destruct s as [h st]. unfold res_id_body in Hbody.
  rewrite Hbam in Hbody. cbn [mbind result_bind] in Hbody.
  destruct (isin [res_id; bam_id] (df_raw self)) as [|row0 rest] eqn:Efilter.
  { inversion Hbody; subst s'. exact Hinv. }
  pose proof (alloc_lookup h row0.2) as Halloc.
  destruct (alloc h row0.2) as [h0 base_frame]. cbn [fst snd] in Halloc.
  inv_bind Hbody as [h1 st1] Hloop. inversion Hbody; subst s'; clear Hbody.
  destruct Hinv as [_ Hts]. cbn [fst snd] in Hts.
  assert (Hrow : row_inv self p bam_id base_frame (h1, st1)).
  { eapply (for_each_inv (row_inv self p bam_id base_frame) (fun r => r ∈ df_raw self));
      [| |
       |exact Hloop].
    - intros s x s' Hx Hs Hstep. eapply row_body_inv; eauto.
    - rewrite <- Efilter. apply Forall_forall. intros r Hr.
      apply elem_of_isin in Hr. tauto.
    - unfold row_inv. cbn. repeat split; eauto. }
  destruct Hrow as (_ & _ & Htp & Hts1). cbn [fst snd] in *.
  split; cbn.
  - intros r Hr. apply elem_of_app in Hr as [Hr|Hr].
    + left. apply elem_of_not_isin in Hr. exact Hr.
    + right. rewrite Forall_forall in Htp. auto.
  - exact Hts1.
Qed.

(** ** Rows of other identifiers *)

Lemma res_id_body_merged self p bam_id_hex bam_id (s s' : heap * Locals) (res_id : Z) :
  bam_id_of bam_id_hex = Ok bam_id ->
  res_id_body self p bam_id_hex s res_id = Ok s' ->
  (isin [res_id; bam_id] (df_raw self) = [] ∧ s' = s) ∨ merged self s'.
Proof.
  intros Hbam Hbody. destruct s as [h st]. unfold res_id_body in Hbody.
  rewrite Hbam in Hbody. cbn [mbind result_bind] in Hbody.
  destruct (isin [res_id; bam_id] (df_raw self)) as [|row0 rest].
  { left. split; congruence. }
  right. destruct (alloc h row0.2) as [h0 base_frame].
  inv_bind Hbody as [h1 st1] Hloop. inversion Hbody; subst s'.
  exists (df_raw_tp st1). reflexivity.
Qed.

Lemma for_each_merged self p bam_id_hex bam_id (ids : list Z) :
  bam_id_of bam_id_hex = Ok bam_id ->
  ∀ s s', for_each (res_id_body self p bam_id_hex) ids s = Ok s' ->
    merged self s
    ∨ (∃ res_id, res_id ∈ ids ∧ isin [res_id; bam_id] (df_raw self) ≠ []) ->
    merged self s'.
Proof.
  intros Hbam. induction ids as [|x ids IH]; intros s s' Hrun Hcase.
  - cbn in Hrun. destruct Hcase as [Hm|(res_id & Hin & _)].
    + congruence.
    + inversion Hin.
  - cbn [for_each] in Hrun. inv_bind Hrun as s1 Hstep.
    apply (IH s1 s' Hrun).
    destruct (res_id_body_merged _ _ _ _ _ _ _ Hbam Hstep) as [[Hempty ->]|Hm];
      [|left; exact Hm].
    destruct Hcase as [Hm|(res_id & Hin & Hne)]; [left; exact Hm|].
    apply elem_of_cons in Hin as [->|Hin]; [contradiction|].
    right. eauto.
Qed.

(** When some watched identifier has rows and nothing is raised, the rows
    of the other identifiers are all in the output. *)
Lemma unrelated_rows_pass self p bam_id_hex bam_id (out : DataFrame) (res_id : Z) (r : Row) :
  bam_id_of bam_id_hex = Ok bam_id ->
  combine_tp_frames self p bam_id_hex = Ok (Some out) ->
  res_id ∈ res_id_list self ->
  isin [res_id; bam_id] (df_raw self) ≠ [] ->
  r ∈ df_raw self -> ID r.2 ∉ res_id_list self ->
  r ∈ out.
Proof.
  intros Hbam Hrun Hres Hne Hr Hid. unfold combine_tp_frames in Hrun.
  destruct (groupby BusChannel (df_raw self)) as [|[channel df_raw_channel] gs];
    [discriminate|].
  inv_bind Hrun as [h st] Hloop. inversion Hrun; subst out; clear Hrun.
  apply elem_of_sort_index.
  destruct (for_each_merged _ _ _ _ _ Hbam _ _ Hloop) as [tp Htp]; [right; eauto|].
  cbn [snd] in Htp. rewrite Htp. apply elem_of_app. left.
  apply elem_of_not_isin. auto.
Qed.

(** ** Two-segment reassembly under the ISO-TP preset *)

(** C1 (the code departs from the claim): a first frame
    [0x10 0x05 0x01 0x02] followed by a consecutive frame
    [0x21 0x03 0x04 0x05] of the watched identifier [res_id] does not give
    a frame with payload [01 02 03 04 05].  For [res_id <> 0] the first
    frame is not recognised and the output is empty; for [res_id = 0] both
    rows count as first frames and the only frame built has payload
    [01 02]. *)
Theorem C1_uds_two_segments_not_reassembled (res_id t1 t2 : Z) :
  combine_tp_frames_uds
    (mkDecoder [(t1, raw res_id [0x10; 0x05; 0x01; 0x02]);
                (t2, raw res_id [0x21; 0x03; 0x04; 0x05])] [res_id])
  = Ok (Some (if res_id =? 0
              then [(t1, mkFrame 1 0 false 0 2 [0x01; 0x02])]
              else [])).
Proof.
  destruct (Z.eqb_spec res_id 0) as [->|Hne].
  - vm_compute. reflexivity.
  - unfold combine_tp_frames_uds, combine_tp_frames. cbn [df_raw res_id_list].
    destruct (groupby_cons BusChannel (t1, raw res_id [0x10; 0x05; 0x01; 0x02])
                [(t2, raw res_id [0x21; 0x03; 0x04; 0x05])]) as (g & gs & ->).
    destruct g as [channel df_raw_channel].
    cbn [for_each df_raw res_id_list]. unfold res_id_body.
    cbn [df_raw res_id_list bam_id_of String.eqb mbind result_bind].
    rewrite !isin_cons_in by (cbn; left).
    rewrite !not_isin_cons_in by (cbn; left).
    change (isin [res_id; 0] []) with (@nil Row).
    change (not_isin [res_id] []) with (@nil Row).
    destruct (alloc ∅ _) as [h base_frame].
    assert (E0 : (0 =? res_id) = false) by (apply Z.eqb_neq; congruence).
    cbn [for_each]. unfold row_body at 1.
    cbn [DataBytes raw index0 ID snd mbind result_bind].
    rewrite is_first_by_id, E0.
    change (is_single uds_profile 16) with false.
    change (is_conseq uds_profile 16) with false. cbn iota.
    unfold row_body. cbn [DataBytes raw index0 ID snd mbind result_bind].
    rewrite is_first_by_id, E0.
    change (is_single uds_profile 33) with false.
    change (is_conseq uds_profile 33) with true. cbn iota.
    reflexivity.
Qed.

(** ** A single frame under the ISO-TP preset *)

(** C2 (the code departs from the claim): a table holding one frame of
    the watched identifier with payload [0x00 0xAA 0xBB] makes
    [combine_tp_frames_uds] raise [TypeError]; no frame with payload
    [AA BB] is built. *)
Theorem C2_uds_single_frame_raises (res_id t : Z) :
  combine_tp_frames_uds (mkDecoder [(t, raw res_id [0x00; 0xAA; 0xBB])] [res_id])
  = Raise TypeError.
Proof.
  unfold combine_tp_frames_uds, combine_tp_frames. cbn [df_raw res_id_list].
  destruct (groupby_cons BusChannel (t, raw res_id [0x00; 0xAA; 0xBB]) [])
    as (g & gs & ->).
  destruct g as [channel df_raw_channel].
  cbn [for_each]. unfold res_id_body.
  cbn [df_raw res_id_list bam_id_of String.eqb mbind result_bind].
  rewrite isin_cons_in by (cbn; left).
  destruct (alloc ∅ _) as [h base_frame].
  cbn [for_each].
  rewrite (row_body_single _ _ _ _ _ _ _ 0) by reflexivity.
  reflexivity.
Qed.

(** ** The end of the stream *)

(** C3 (the code departs from the claim): nothing is emitted when the
    rows run out.  A table made of one row that opens a sequence and of
    any number of consecutive frames of the watched identifier comes back
    with its pass-through rows only: the accumulated payload is dropped,
    where a following first frame would have flushed it. *)
Theorem C3_no_flush_at_end_of_stream (p : Profile) (bam_id_hex : string)
    (bam_id res_id : Z) (r0 : Row) (datas : DataFrame) :
  bam_id_of bam_id_hex = Ok bam_id ->
  opens_sequence p bam_id r0 ->
  (bam_id_hex = EmptyString ∨ ∃ c, bam_can_id (DataBytes r0.2) = Ok c) ->
  Forall (fun r : Row => ID r.2 = res_id ∧ continues_sequence p bam_id r) datas ->
  combine_tp_frames (mkDecoder (r0 :: datas) [res_id]) p bam_id_hex
  = Ok (Some (sort_index (not_isin [res_id] (r0 :: datas)))).
Proof.
  intros Hbam Hopen Hpgn Hdatas.
  unfold combine_tp_frames. cbn [df_raw res_id_list].
  destruct (groupby_cons BusChannel r0 datas) as (g & gs & ->).
  destruct g as [channel df_raw_channel].
  cbn [for_each]. unfold res_id_body. cbn [df_raw res_id_list].
  rewrite Hbam. cbn [mbind result_bind].
  rewrite isin_all.
  2:{ intros r Hr. apply elem_of_cons in Hr as [->|Hr].
      - rewrite (opens_sequence_id _ _ _ Hopen). rewrite !elem_of_cons. auto.
      - rewrite Forall_forall in Hdatas. destruct (Hdatas r Hr) as [-> _]. left. }
  destruct (alloc ∅ r0.2) as [h base_frame].
  cbn [for_each].
  rewrite (row_body_first _ _ _ _ _ _ Hopen).
  rewrite flush_empty by reflexivity. cbn [mbind result_bind].
  assert (Hcid : ∃ cid, (if String.eqb bam_id_hex EmptyString
                         then Ok None
                         else c ← bam_can_id (DataBytes r0.2); Ok (Some c)) = Ok cid).
  { destruct Hpgn as [->|[c Hc]].
    - exists None. reflexivity.
    - destruct (String.eqb bam_id_hex EmptyString); [eauto|]. rewrite Hc. simpl. eauto. }
  destruct Hcid as [cid Hcid]. cbn [can_id]. rewrite Hcid. cbn [mbind result_bind].
  rewrite for_each_conseq.
  2:{ eapply Forall_impl; [exact Hdatas|]. intros r [_ Hr]. exact Hr. }
  cbn [mbind result_bind]. unfold df_raw_tp. cbn. rewrite app_nil_r. reflexivity.
Qed.

(** The J1939 table of one announce frame and two data frames comes back
    as the announce frame alone. *)
Lemma C3_no_flush_at_end_of_stream_witness :
  combine_tp_frames_j1939 (mkDecoder j1939_table [0x1CEBFF00]) "1CECFF00"
  = Ok (Some [(1, bam_announce)]).
Proof.
  apply (C3_no_flush_at_end_of_stream j1939_profile "1CECFF00" 0x1CECFF00
           0x1CEBFF00 (1, bam_announce) [(2, bam_data_1); (3, bam_data_2)]).
  - reflexivity.
  - exists 0x20. repeat split; reflexivity.
  - right. eexists. reflexivity.
  - repeat constructor.
    + exists 0x01. repeat split; reflexivity.
    + exists 0x02. repeat split; reflexivity.
Defined.

(** ** Tables without a watched row *)

(** C8 (the code departs from the claim): when no row of a non-empty
    table carries a target identifier or [bam_id], every identifier is
    skipped before the merge, and the table returned is empty: the
    unrelated rows are all missing from it. *)
Theorem C8_no_watched_row_empties_output (self : MultiFrameDecoder) (p : Profile)
    (bam_id_hex : string) (bam_id : Z) :
  bam_id_of bam_id_hex = Ok bam_id ->
  df_raw self ≠ [] ->
  (∀ r, r ∈ df_raw self -> (ID r.2 ∉ res_id_list self) ∧ ID r.2 ≠ bam_id) ->
  combine_tp_frames self p bam_id_hex = Ok (Some []).
Proof.
  intros Hbam Hne Hunrelated. unfold combine_tp_frames.
  destruct (df_raw self) as [|r0 df] eqn:Edf; [congruence|].
  destruct (groupby_cons BusChannel r0 df) as ([channel df_raw_channel] & gs & ->).
  rewrite for_each_skip; [reflexivity|].
  intros res_id Hres. unfold res_id_body. rewrite Hbam. cbn [mbind result_bind].
  rewrite Edf. rewrite isin_none; [reflexivity|].
  intros r Hr. destruct (Hunrelated r Hr) as [Hnot Hnb].
  rewrite !elem_of_cons. intros [E|[E|E]].
  - apply Hnot. rewrite E. exact Hres.
  - contradiction.
  - inversion E.
Qed.

(** One frame of identifier [0x123] with the target list [[0x7E8]]: the
    output is empty. *)
Lemma C8_no_watched_row_empties_output_witness :
  combine_tp_frames_uds (mkDecoder [(1, raw 0x123 [0x01; 0x02; 0x03])] [0x7E8])
  = Ok (Some []).
Proof.
  apply (C8_no_watched_row_empties_output
           (mkDecoder [(1, raw 0x123 [0x01; 0x02; 0x03])] [0x7E8])
           uds_profile EmptyString 0).
  - reflexivity.
  - discriminate.
  - intros r Hr. apply list_elem_of_singleton in Hr. subst r. cbn.
    split; [|discriminate].
    intros Hin. apply list_elem_of_singleton in Hin. discriminate.
Defined.

(** ** Order of the outputs *)

(** C9: the table [combine_tp_frames] returns and the table
    [decode_tp_data] returns have non-decreasing time stamps. *)
Theorem C9_outputs_sorted (self : MultiFrameDecoder) (p : Profile)
    (bam_id_hex : string) (out : DataFrame)
    {P : Type} (decode_frame : DataFrame -> list (Z * P)) (df_raw_combined : DataFrame) :
  combine_tp_frames self p bam_id_hex = Ok (Some out) ->
  StronglySorted Z.le (TimeStamp <$> out)
  ∧ StronglySorted Z.le (fst <$> decode_tp_data decode_frame df_raw_combined).
Proof.
  intros Hrun. split.
  - unfold combine_tp_frames in Hrun.
    destruct (groupby BusChannel (df_raw self)) as [|[channel df_raw_channel] gs];
      [discriminate|].
    inv_bind Hrun as [h st] Hloop. inversion Hrun; subst out.
    apply sort_index_sorted.
  - unfold decode_tp_data. apply sort_index_sorted.
Qed.

Lemma C9_outputs_sorted_witness :
  StronglySorted Z.le
    (TimeStamp <$> uds_id0_output)
  ∧ StronglySorted Z.le
      (fst <$> decode_tp_data (fun g => (fun r : Row => (r.1, DataLength r.2)) <$> g)
                              uds_id0_table).
Proof.
  apply (C9_outputs_sorted (mkDecoder uds_id0_table [0x7E8]) uds_profile EmptyString).
  vm_compute. reflexivity.
Defined.

(** ** The byte tests of the ISO-TP preset *)

Lemma byte_cases (P : Z -> bool) :
  forallb P (List.map Z.of_nat (seq 0 256)) = true ->
  ∀ b, 0 <= b < 256 -> P b = true.
Proof.
  intros H b Hb. rewrite forallb_forall in H. apply H.
  apply in_map_iff. exists (Z.to_nat b). split; [lia|].
  apply in_seq. lia.
Qed.

(** C6 (amended): in the ISO-TP preset the single-frame tag [0x00] is
    tested against the whole first byte, so that exactly the first byte
    [0x00] passes the single-frame test; the consecutive tag is tested
    against the high nibble; the first-frame mask and tag handed over are
    [0xF0] and [0x10]; the first-frame payload starts at byte 2 and the
    consecutive payload at byte 1. *)
Theorem C6_uds_preset_tests (b : Z) :
  0 <= b < 256 ->
  (is_single uds_profile b = true <-> b = 0)
  ∧ (is_conseq uds_profile b = true <-> high_nibble b = 2)
  ∧ FIRST_FRAME_MASK uds_profile = 0xF0
  ∧ FIRST_FRAME uds_profile = 0x10
  ∧ first_frame_payload_start uds_profile = 2
  ∧ conseq_frame_payload_start uds_profile = 1.
Proof.
  intros Hb.
  assert (Hok : uds_tests_agree b = true)
    by (apply byte_cases; [vm_compute; reflexivity | exact Hb]).
  unfold uds_tests_agree in Hok. apply andb_prop in Hok as [H1 H2].
  apply Bool.eqb_prop in H1, H2.
  repeat split; try reflexivity.
  - intros H. rewrite H in H1. symmetry in H1. apply Z.eqb_eq in H1. exact H1.
  - intros ->. reflexivity.
  - intros H. rewrite H in H2. symmetry in H2. apply Z.eqb_eq in H2. exact H2.
  - intros H. rewrite H2. apply Z.eqb_eq. exact H.
Qed.

(** C6, as stated, fails: the first byte [0x05] has high nibble 0 and
    does not pass the single-frame test. *)
Lemma C6_low_nibble_not_single : ¬ single_by_high_nibble uds_profile.
Proof.
  intros H. specialize (H 0x05). 
  assert (E : is_single uds_profile 0x05 = true) by (apply H; [lia | reflexivity]).
  vm_compute in E. discriminate.
Qed.

Lemma C6_uds_preset_tests_witness :
  (is_single uds_profile 0x21 = true <-> 0x21 = 0)
  ∧ (is_conseq uds_profile 0x21 = true <-> high_nibble 0x21 = 2)
  ∧ FIRST_FRAME_MASK uds_profile = 0xF0
  ∧ FIRST_FRAME uds_profile = 0x10
  ∧ first_frame_payload_start uds_profile = 2
  ∧ conseq_frame_payload_start uds_profile = 1.
Proof. apply (C6_uds_preset_tests 0x21). lia. Defined.

(** ** The template frame *)

(** C10 (amended): [construct_new_tp_frame] makes no copy.  It updates
    the template in place and returns the template itself: afterwards the
    template holds the accumulated bytes as payload, their count as
    declared length and DLC 0, its identifier is the supplied one exactly
    when an identifier other than [None] and 0 was supplied, its other
    fields are as before, and no other object has changed. *)
Theorem C10_construct_updates_template_in_place (h : heap) (base_frame : loc)
    (f : Frame) (payload : list Z) (cid : option Z) :
  h !! base_frame = Some f ->
  ∃ f', construct_new_tp_frame h base_frame payload cid
        = (<[base_frame := f']> h, base_frame)
        ∧ DataBytes f' = payload
        ∧ DataLength f' = Z.of_nat (length payload)
        ∧ DLC f' = 0
        ∧ ID f' = match cid with
                  | Some id => if id =? 0 then ID f else id
                  | None => ID f
                  end
        ∧ BusChannel f' = BusChannel f
        ∧ IDE f' = IDE f.
Proof.
  intros Hf. exists (rebuilt f payload cid).
  split; [apply construct_new_tp_frame_at; exact Hf|].
  unfold rebuilt. cbn. repeat split.
  destruct cid as [id|]; cbn; [|reflexivity].
  destruct (id =? 0); reflexivity.
Qed.

(** C10, as stated, fails: after the call the template no longer holds
    its payload. *)
Lemma C10_template_overwritten :
  ¬ copies_template {[ 0%nat := raw 0x7E8 [0x10; 0x05; 0x01; 0x02] ]} 0%nat
                    [0x01; 0x02; 0x03; 0x04; 0x05] None.
Proof.
  unfold copies_template. vm_compute. intros (H & _). discriminate.
Qed.

Lemma C10_construct_updates_template_in_place_witness :
  ∃ f', construct_new_tp_frame {[ 0%nat := raw 0x7E8 [0x10; 0x05; 0x01; 0x02] ]}
                               0%nat [0x01; 0x02; 0x03; 0x04; 0x05] None
        = (<[0%nat := f']> {[ 0%nat := raw 0x7E8 [0x10; 0x05; 0x01; 0x02] ]}, 0%nat)
        ∧ DataBytes f' = [0x01; 0x02; 0x03; 0x04; 0x05]
        ∧ DataLength f' = 5
        ∧ DLC f' = 0
        ∧ ID f' = 0x7E8
        ∧ BusChannel f' = 1
        ∧ IDE f' = false.
Proof.
  apply (C10_construct_updates_template_in_place
           {[ 0%nat := raw 0x7E8 [0x10; 0x05; 0x01; 0x02] ]} 0%nat
           (raw 0x7E8 [0x10; 0x05; 0x01; 0x02]) [0x01; 0x02; 0x03; 0x04; 0x05] None).
  reflexivity.
Defined.

(** * Further properties of the code *)

(** ** The PGN of an announce frame *)

Ltac bytes := repeat constructor; unfold is_byte; lia.

Ltac each_row Hr :=
  repeat (apply elem_of_cons in Hr as [->|Hr]); [..|inversion Hr].

Ltac digit_cases n Hn :=
  assert (Hcases : n = 0 ∨ n = 1 ∨ n = 2 ∨ n = 3 ∨ n = 4 ∨ n = 5 ∨ n = 6 ∨ n = 7
                   ∨ n = 8 ∨ n = 9 ∨ n = 10 ∨ n = 11 ∨ n = 12 ∨ n = 13 ∨ n = 14
                   ∨ n = 15) by lia;
  clear Hn;
  repeat (destruct Hcases as [->|Hcases]); [..|subst n].

Lemma format_02x_byte (b : Z) :
  is_byte b ->
  format_02x b
  = String (digit_char (b / 16)) (String (digit_char (b mod 16)) EmptyString).
Proof.
  intros Hb. apply String.eqb_eq.
  apply (byte_cases format_02x_two_digits); [vm_compute; reflexivity | exact Hb].
Qed.

Lemma lower_digit_char (n : Z) : 0 <= n < 16 -> lower (digit_char n) = digit_char n.
Proof. intros Hn. digit_cases n Hn; reflexivity. Qed.

Lemma digit_char_not_minus (n : Z) :
  0 <= n < 16 -> Ascii.eqb (digit_char n) "-" = false.
Proof. intros Hn. digit_cases n Hn; reflexivity. Qed.

Lemma uint_of_char_digit (n : Z) (d : Hexadecimal.uint) :
  0 <= n < 16 -> uint_of_char (digit_char n) (Some d) = Some (hexdigit n d).
Proof. intros Hn. digit_cases n Hn; reflexivity. Qed.

Lemma revapp_hexdigit (n : Z) (d acc : Hexadecimal.uint) :
  Hexadecimal.revapp (hexdigit n d) acc = Hexadecimal.revapp d (hexdigit n acc).
Proof. unfold hexdigit. destruct n as [|p|p]; try reflexivity.
  do 4 (destruct p; try reflexivity). Qed.

Lemma of_lu_hexdigit (n : Z) (d : Hexadecimal.uint) :
  0 <= n < 16 ->
  Z.of_N (Unsigned.of_lu (hexdigit n d)) = n + 16 * Z.of_N (Unsigned.of_lu d).
Proof.
  intros Hn. digit_cases n Hn; cbn [hexdigit Unsigned.of_lu]; lia.
Qed.

Lemma div_mod_16 (b : Z) : is_byte b -> 0 <= b / 16 < 16 ∧ 0 <= b mod 16 < 16.
Proof.
  unfold is_byte. intros Hb. split.
  - split; [apply Z.div_pos; lia | apply Z.div_lt_upper_bound; lia].
  - apply Z.mod_pos_bound. lia.
Qed.

Lemma append_two (c1 c2 : ascii) (t : string) :
  String.append (String c1 (String c2 EmptyString)) t = String c1 (String c2 t).
Proof. reflexivity. Qed.

Lemma join_cons (s : string) (l : list string) :
  join (s :: l) = String.append s (join l).
Proof. reflexivity. Qed.

Lemma parse_digits (bs : list Z) :
  Forall is_byte bs ->
  NilEmpty.uint_of_string (lowercase (join (format_02x <$> bs)))
  = Some (foldr byte_digits Hexadecimal.Nil bs).
Proof.
  induction 1 as [|b bs Hb _ IH]; [reflexivity|].
  destruct (div_mod_16 b Hb) as [Hhi Hlo].
  rewrite fmap_cons, join_cons, (format_02x_byte b Hb).
  rewrite append_two. cbn [lowercase foldr].
  rewrite !lower_digit_char by assumption.
  cbn [NilEmpty.uint_of_string]. rewrite IH.
  rewrite !uint_of_char_digit by assumption. reflexivity.
Qed.

Lemma revapp_digits (bs : list Z) (acc : Hexadecimal.uint) :
  Hexadecimal.revapp (foldr byte_digits Hexadecimal.Nil bs) acc
  = foldl (fun a b => hexdigit (b mod 16) (hexdigit (b / 16) a)) acc bs.
Proof.
  revert acc. induction bs as [|b bs IH]; intros acc; [reflexivity|].
  cbn [foldr foldl]. unfold byte_digits at 1.
  rewrite !revapp_hexdigit. apply IH.
Qed.

Lemma of_lu_digits (bs : list Z) (acc : Hexadecimal.uint) :
  Forall is_byte bs ->
  Z.of_N (Unsigned.of_lu
            (foldl (fun a b => hexdigit (b mod 16) (hexdigit (b / 16) a)) acc bs))
  = foldl (fun v b => v * 256 + b) (Z.of_N (Unsigned.of_lu acc)) bs.
Proof.
  intros Hbs. revert acc. induction Hbs as [|b bs Hb _ IH]; intros acc; [reflexivity|].
  destruct (div_mod_16 b Hb) as [Hhi Hlo].
  cbn [foldl]. rewrite IH. f_equal.
  rewrite !of_lu_hexdigit by assumption.
  pose proof (Z.div_mod b 16). lia.
Qed.

(** The hexadecimal text of a non-empty run of bytes reads back as the
    number they spell. *)
Lemma int16_join_bytes (bs : list Z) :
  bs ≠ [] -> Forall is_byte bs ->
  int16 (join (format_02x <$> bs)) = Ok (be_value bs).
Proof.
  intros Hne Hbs. unfold int16.
  pose proof (parse_digits bs Hbs) as Hparse.
  destruct bs as [|b bs]; [congruence|].
  inversion Hbs as [|? ? Hb Hbs']; subst.
  destruct (div_mod_16 b Hb) as [Hhi Hlo].
  revert Hparse. rewrite fmap_cons, join_cons, (format_02x_byte b Hb).
  rewrite append_two. cbn [lowercase].
  rewrite !lower_digit_char by assumption.
  intros Hparse.
  cbn [NilZero.int_of_string]. rewrite digit_char_not_minus by assumption.
  cbn [NilZero.uint_of_string]. rewrite Hparse. cbn [option_map].
  f_equal. cbn [Z.of_hex_int]. unfold Z.of_hex_uint.
  rewrite Unsigned.of_uint_alt. unfold Hexadecimal.rev.
  change (byte_digits b (foldr byte_digits Hexadecimal.Nil bs))
    with (foldr byte_digits Hexadecimal.Nil (b :: bs)).
  rewrite revapp_digits, of_lu_digits by exact Hbs. reflexivity.
Qed.

Lemma slice_5_8_nil {A : Type} (l : list A) :
  slice_5_8 l = [] <-> (length l <= 5)%nat.
Proof.
  unfold slice_5_8. split.
  - intros H. destruct (drop 5 l) as [|x t] eqn:E; [|discriminate].
    apply (f_equal length) in E. rewrite length_drop in E. cbn in E. lia.
  - intros H. rewrite drop_ge by exact H. reflexivity.
Qed.

Lemma slice_5_8_bytes (payload : list Z) :
  Forall is_byte payload -> Forall is_byte (reverse (slice_5_8 payload)).
Proof.
  intros H. apply Forall_reverse. unfold slice_5_8.
  apply Forall_take, Forall_drop. exact H.
Qed.

Lemma bam_can_id_value (payload : list Z) :
  Forall is_byte payload -> (5 < length payload)%nat ->
  bam_can_id payload = Ok (pgn_can_id (be_value (reverse (slice_5_8 payload)))).
Proof.
  intros Hb Hlen. unfold bam_can_id.
  rewrite int16_join_bytes.
  - reflexivity.
  - intros E. apply (f_equal reverse) in E. rewrite reverse_involutive in E.
    apply slice_5_8_nil in E. lia.
  - apply slice_5_8_bytes. exact Hb.
Qed.

Lemma bam_can_id_bytes_5_7 (payload : list Z) (b5 b6 b7 : Z) :
  Forall is_byte payload ->
  payload !! 5%nat = Some b5 -> payload !! 6%nat = Some b6 ->
  payload !! 7%nat = Some b7 ->
  bam_can_id payload
  = Ok (Z.lor (Z.lor (Z.shiftl 6 26) (Z.shiftl (b7 * 65536 + b6 * 256 + b5) 8)) 254).
Proof.
  intros Hb H5 H6 H7.
  assert (Hlen : (7 < length payload)%nat) by (apply lookup_lt_Some in H7; exact H7).
  rewrite bam_can_id_value by (assumption || lia).
  assert (Hs : slice_5_8 payload = [b5; b6; b7]).
  { unfold slice_5_8.
    do 5 (destruct payload as [|? payload]; [cbn in Hlen; lia|]).
    cbn in H5, H6, H7.
    destruct payload as [|x5 [|x6 [|x7 rest]]]; try discriminate.
    cbn in H5, H6, H7. inversion H5; inversion H6; inversion H7; subst. reflexivity. }
  rewrite Hs. unfold pgn_can_id.
  replace (be_value (reverse [b5; b6; b7])) with (b7 * 65536 + b6 * 256 + b5)
    by (unfold be_value; cbn; lia).
  reflexivity.
Qed.

(** X1: for a payload of bytes that has bytes 5, 6 and 7, the identifier
    computed from an announce frame is [(6 << 26) | (pgn << 8) | 254] with
    [pgn = b7 * 65536 + b6 * 256 + b5]: the three bytes are read
    little-endian, whatever their values. *)
Theorem X1_bam_can_id_little_endian (payload : list Z) (b5 b6 b7 : Z) :
  Forall is_byte payload ->
  payload !! 5%nat = Some b5 -> payload !! 6%nat = Some b6 ->
  payload !! 7%nat = Some b7 ->
  bam_can_id payload
  = Ok (Z.lor (Z.lor (Z.shiftl 6 26) (Z.shiftl (b7 * 65536 + b6 * 256 + b5) 8)) 254).
Proof. apply bam_can_id_bytes_5_7. Qed.

Lemma X1_bam_can_id_little_endian_witness :
  bam_can_id (DataBytes bam_announce) = Ok pgn_01FE00_id.
Proof.
  apply (X1_bam_can_id_little_endian (DataBytes bam_announce) 0x00 0xFE 0x01).
  - bytes.
  - reflexivity.
  - reflexivity.
  - reflexivity.
Defined.

(** X2: on a payload of bytes the PGN computation raises [ValueError]
    exactly when the payload has at most five bytes (the slice [5:8] is
    then empty and [int] is given the empty string). *)
Theorem X2_bam_can_id_value_error (payload : list Z) :
  Forall is_byte payload ->
  (bam_can_id payload = Raise ValueError <-> (length payload <= 5)%nat).
Proof.
  intros Hb. split.
  - intros Hraise. destruct (decide (length payload <= 5)%nat) as [H|H]; [exact H|].
    rewrite bam_can_id_value in Hraise by (assumption || lia). discriminate.
  - intros Hlen. unfold bam_can_id.
    rewrite (proj2 (slice_5_8_nil payload) Hlen). reflexivity.
Qed.

Lemma X2_bam_can_id_value_error_witness :
  bam_can_id [0x20; 0x09; 0x00; 0x02; 0xFF] = Raise ValueError
  <-> (length [0x20; 0x09; 0x00; 0x02; 0xFF] <= 5)%nat.
Proof. apply (X2_bam_can_id_value_error [0x20; 0x09; 0x00; 0x02; 0xFF]). bytes. Defined.

Lemma log2_lt_pow2_nonneg (a n : Z) : 0 <= a -> 0 < n -> (Z.log2 a < n <-> a < 2 ^ n).
Proof.
  intros Ha Hn. destruct (Z.eq_dec a 0) as [->|Hne].
  - cbn. split; intros _; [apply Z.pow_pos_nonneg; lia | exact Hn].
  - symmetry. apply Z.log2_lt_pow2. lia.
Qed.

Lemma pgn_can_id_lt (pgn n : Z) :
  0 <= pgn -> 29 <= n -> (pgn_can_id pgn < 2 ^ n <-> pgn * 256 < 2 ^ n).
Proof.
  intros Hp Hn. unfold pgn_can_id. rewrite (Z.shiftl_mul_pow2 pgn 8) by lia.
  change (2 ^ 8) with 256. change (Z.shiftl 6 26) with 402653184.
  assert (H0 : 0 <= Z.lor (Z.lor 402653184 (pgn * 256)) 254)
    by (rewrite !Z.lor_nonneg; lia).
  pose proof (log2_lt_pow2_nonneg _ n H0 ltac:(lia)) as E1.
  pose proof (log2_lt_pow2_nonneg (pgn * 256) n ltac:(lia) ltac:(lia)) as E2.
  rewrite !Z.log2_lor in E1 by (rewrite ?Z.lor_nonneg; lia).
  change (Z.log2 402653184) with 28 in E1. change (Z.log2 254) with 7 in E1.
  split; intros H.
  - apply E2. apply E1 in H. lia.
  - apply E1. apply E2 in H. lia.
Qed.

(** X3: the identifier computed from an announce frame of eight bytes or
    more is positive and below [2 ^ 32]; it fits the 29 bits of an extended
    identifier exactly when payload byte 7 is below [0x20]. *)
Theorem X3_bam_can_id_range (payload : list Z) (b7 c : Z) :
  Forall is_byte payload ->
  payload !! 7%nat = Some b7 ->
  bam_can_id payload = Ok c ->
  0 < c < 2 ^ 32 ∧ (c < 2 ^ 29 <-> b7 < 32).
Proof.
  intros Hb H7 Hc.
  assert (Hlen : (7 < length payload)%nat) by (apply lookup_lt_Some in H7; exact H7).
  destruct (lookup_lt_is_Some_2 payload 5) as [b5 H5]; [lia|].
  destruct (lookup_lt_is_Some_2 payload 6) as [b6 H6]; [lia|].
  rewrite (bam_can_id_bytes_5_7 payload b5 b6 b7 Hb H5 H6 H7) in Hc.
  inversion Hc as [Ec]. fold (pgn_can_id (b7 * 65536 + b6 * 256 + b5)).
  rewrite Forall_lookup in Hb.
  pose proof (Hb _ _ H5) as R5. pose proof (Hb _ _ H6) as R6.
  pose proof (Hb _ _ H7) as R7. unfold is_byte in R5, R6, R7.
  set (pgn := b7 * 65536 + b6 * 256 + b5).
  assert (Hpgn : 0 <= pgn < 2 ^ 24) by (subst pgn; change (2 ^ 24) with 16777216; lia).
  split; [split|].
  - assert (H0 : 0 <= pgn_can_id pgn)
      by (unfold pgn_can_id; rewrite !Z.lor_nonneg, !Z.shiftl_nonneg; lia).
    assert (Hne : pgn_can_id pgn ≠ 0).
    { intros E. apply Z.lor_eq_0_iff in E as [_ E]. discriminate. }
    lia.
  - apply pgn_can_id_lt; [lia | lia |]. change (2 ^ 32) with 4294967296.
    change (2 ^ 24) with 16777216 in Hpgn. lia.
  - rewrite pgn_can_id_lt by lia. change (2 ^ 29) with 536870912. subst pgn. lia.
Qed.

Lemma X3_bam_can_id_range_witness :
  0 < pgn_01FE00_id < 2 ^ 32 ∧ (pgn_01FE00_id < 2 ^ 29 <-> 0x01 < 32).
Proof.
  apply (X3_bam_can_id_range (DataBytes bam_announce) 0x01 pgn_01FE00_id).
  - bytes.
  - reflexivity.
  - reflexivity.
Defined.

(** ** The shape of the output *)

Lemma for_each_ext {S A : Type} (body body' : S -> A -> result S) (l : list A) (s : S) :
  (∀ s x, body s x = body' s x) -> for_each body l s = for_each body' l s.
Proof.
  intros H. revert s. induction l as [|x l IH]; intros s; cbn; [reflexivity|].
  rewrite H. destruct (body' s x); cbn; [apply IH | reflexivity].
Qed.

(** X4: [combine_tp_frames] returns [None] exactly when the table is
    empty; on a table with a row it returns a table or raises. *)
Theorem X4_combine_none_iff_empty (self : MultiFrameDecoder) (p : Profile)
    (bam_id_hex : string) :
  combine_tp_frames self p bam_id_hex = Ok None <-> df_raw self = [].
Proof.
  unfold combine_tp_frames. split.
  - destruct (df_raw self) as [|r df]; [reflexivity|].
    destruct (groupby_cons BusChannel r df) as ([channel g] & gs & ->).
    destruct (for_each _ _ _) as [[h st]|e]; discriminate.
  - intros ->. reflexivity.
Qed.

(** X5: the first-frame mask and the first-frame tag have no effect:
    two profiles that agree on the six other parameters give the same
    result on every table, identifier list and broadcast id. *)
Theorem X5_first_frame_tag_unused (self : MultiFrameDecoder) (p p' : Profile)
    (bam_id_hex : string) :
  agree_but_first_tag p p' ->
  combine_tp_frames self p bam_id_hex = combine_tp_frames self p' bam_id_hex.
Proof.
  intros (E1 & E2 & E3 & E4 & E5 & E6).
  assert (Hrow : ∀ bam_id base_frame s r,
             row_body p bam_id_hex bam_id base_frame s r
             = row_body p' bam_id_hex bam_id base_frame s r).
  { intros bam_id base_frame s [index row]. unfold row_body.
    destruct (index0 (DataBytes row)) as [b|e]; [|reflexivity].
    cbn [mbind result_bind]. unfold is_single, is_conseq.
    rewrite !is_first_by_id, E1, E2, E3, E4, E5, E6. reflexivity. }
  assert (Hres : ∀ s res_id,
             res_id_body self p bam_id_hex s res_id
             = res_id_body self p' bam_id_hex s res_id).
  { intros [h st] res_id. unfold res_id_body.
    destruct (bam_id_of bam_id_hex) as [bam_id|e]; [|reflexivity].
    cbn [mbind result_bind].
    destruct (isin [res_id; bam_id] (df_raw self)) as [|row0 rest]; [reflexivity|].
    destruct (alloc h row0.2) as [h0 base_frame].
    rewrite (for_each_ext _ (row_body p' bam_id_hex bam_id base_frame))
      by (intros; apply Hrow).
    reflexivity. }
  unfold combine_tp_frames.
  destruct (groupby BusChannel (df_raw self)) as [|[channel g] gs]; [reflexivity|].
  rewrite (for_each_ext _ (res_id_body self p' bam_id_hex)) by exact Hres.
  reflexivity.
Qed.

Lemma X5_first_frame_tag_unused_witness :
  combine_tp_frames (mkDecoder uds_id0_table [0x7E8]) uds_profile EmptyString
  = combine_tp_frames (mkDecoder uds_id0_table [0x7E8]) uds_other_first_tag EmptyString.
Proof.
  apply (X5_first_frame_tag_unused (mkDecoder uds_id0_table [0x7E8])
           uds_profile uds_other_first_tag EmptyString).
  repeat split; reflexivity.
Defined.

(** The row loop emits at most one frame per row that carries [bam_id]. *)
Lemma row_body_count p bam_id_hex bam_id base_frame (s s' : heap * Locals) (r : Row) :
  row_body p bam_id_hex bam_id base_frame s r = Ok s' ->
  (length (frame_list s'.2)
   <= length (frame_list s.2) + length (isin [bam_id] [r]))%nat.
Proof.
  intros Hstep. destruct s as [h st], r as [index row].
  unfold row_body in Hstep. inv_bind Hstep as b Hb.
  destruct (is_single p b); [discriminate|].
  rewrite is_first_by_id in Hstep.
  destruct (Z.eqb_spec bam_id (ID row)) as [E|E].
  - rewrite isin_cons_in by (cbn; rewrite E; left).
    inv_bind Hstep as [h1 st1] Hflush. inv_bind Hstep as cid Hcid.
    inversion Hstep; subst s'. cbn.
    unfold flush in Hflush.
    destruct (0 <? Z.of_nat (length (payload_concatenated st))).
    + destruct (construct_new_tp_frame h base_frame _ _) as [h2 nf].
      inv_bind Hflush as t Ht. inversion Hflush; subst. cbn.
      rewrite length_app. cbn. lia.
    + inversion Hflush; subst. lia.
  - destruct (is_conseq p b); inversion Hstep; subst s'; cbn; lia.
Qed.

Lemma isin_app (ids : list Z) (df1 df2 : DataFrame) :
  isin ids (df1 ++ df2) = isin ids df1 ++ isin ids df2.
Proof. unfold isin. apply filter_app. Qed.

Lemma for_each_count p bam_id_hex bam_id base_frame (rows : DataFrame) :
  ∀ s s', for_each (row_body p bam_id_hex bam_id base_frame) rows s = Ok s' ->
  (length (frame_list s'.2)
   <= length (frame_list s.2) + length (isin [bam_id] rows))%nat.
Proof.
  induction rows as [|r rows IH]; intros s s' Hrun.
  - cbn in Hrun. inversion Hrun; subst. cbn. lia.
  - cbn [for_each] in Hrun. inv_bind Hrun as s1 Hstep.
    apply row_body_count in Hstep. apply IH in Hrun.
    change (r :: rows) with ([r] ++ rows). rewrite isin_app, length_app. lia.
Qed.

Lemma isin_isin (ids ids' : list Z) (df : DataFrame) :
  (∀ x, x ∈ ids -> x ∈ ids') -> isin ids (isin ids' df) = isin ids df.
Proof.
  intros Hsub. induction df as [|r df IH]; [reflexivity|].
  destruct (decide (ID r.2 ∈ ids)) as [Hin|Hout].
  - rewrite (isin_cons_in ids' r df) by auto.
    rewrite !isin_cons_in by assumption. f_equal. exact IH.
  - rewrite (isin_cons_notin ids r df) by assumption.
    destruct (decide (ID r.2 ∈ ids')) as [Hin'|Hout'].
    + rewrite (isin_cons_in ids') by assumption.
      rewrite isin_cons_notin by assumption. exact IH.
    + rewrite (isin_cons_notin ids') by assumption. exact IH.
Qed.

Lemma res_id_body_merged_with self p bam_id_hex bam_id (s s' : heap * Locals)
    (res_id : Z) :
  bam_id_of bam_id_hex = Ok bam_id ->
  res_inv self p bam_id s ->
  res_id_body self p bam_id_hex s res_id = Ok s' ->
  (isin [res_id; bam_id] (df_raw self) = [] ∧ s' = s) ∨ merged_with self p bam_id s'.
Proof.
  intros Hbam Hinv Hbody. destruct s as [h st]. unfold res_id_body in Hbody.
  rewrite Hbam in Hbody. cbn [mbind result_bind] in Hbody.
  destruct (isin [res_id; bam_id] (df_raw self)) as [|row0 rest] eqn:Efilter.
  { left. split; congruence. }
  right.
  pose proof (alloc_lookup h row0.2) as Halloc.
  destruct (alloc h row0.2) as [h0 base_frame]. cbn [fst snd] in Halloc.
  inv_bind Hbody as [h1 st1] Hloop. inversion Hbody; subst s'; clear Hbody.
  destruct Hinv as [_ Hts]. cbn [fst snd] in Hts.
  assert (Hrow : row_inv self p bam_id base_frame (h1, st1)).
  { eapply (for_each_inv (row_inv self p bam_id base_frame) (fun r => r ∈ df_raw self));
      [| |
       |exact Hloop].
    - intros s x s' Hx Hs Hstep. eapply row_body_inv; eauto.
    - rewrite <- Efilter. apply Forall_forall. intros r Hr.
      apply elem_of_isin in Hr. tauto.
    - unfold row_inv. cbn. repeat split; eauto. }
  destruct Hrow as (_ & Hlen & Htp & _). cbn [fst snd] in *.
  exists (df_raw_tp st1). split; [reflexivity|]. split; [exact Htp|].
  apply for_each_count in Hloop. cbn [fst snd frame_list] in Hloop.
  unfold df_raw_tp. rewrite (length_zip_with_l_eq pair _ _ Hlen).
  rewrite Hlen. rewrite <- Efilter, isin_isin in Hloop; [cbn in Hloop; lia|].
  intros x Hx. apply list_elem_of_singleton in Hx. subst x. right. left.
Qed.

Lemma for_each_merged_with self p bam_id_hex bam_id (ids : list Z) :
  bam_id_of bam_id_hex = Ok bam_id ->
  ∀ s s', for_each (res_id_body self p bam_id_hex) ids s = Ok s' ->
    res_inv self p bam_id s ->
    merged_with self p bam_id s
    ∨ (∃ res_id, res_id ∈ ids ∧ isin [res_id; bam_id] (df_raw self) ≠ []) ->
    merged_with self p bam_id s'.
Proof.
  intros Hbam. induction ids as [|x ids IH]; intros s s' Hrun Hinv Hcase.
  - cbn in Hrun. destruct Hcase as [Hm|(res_id & Hin & _)].
    + congruence.
    + inversion Hin.
  - cbn [for_each] in Hrun. inv_bind Hrun as s1 Hstep.
    apply (IH s1 s' Hrun).
    { eapply res_id_body_inv; eauto. }
    destruct (res_id_body_merged_with _ _ _ _ _ _ _ Hbam Hinv Hstep)
      as [[Hempty ->]|Hm]; [|left; exact Hm].
    destruct Hcase as [Hm|(res_id & Hin & Hne)]; [left; exact Hm|].
    apply elem_of_cons in Hin as [->|Hin]; [contradiction|].
    right. eauto.
Qed.

Lemma res_inv_init self p bam_id :
  res_inv self p bam_id (∅, mkLocals [] [] [] [] None None).
Proof. split; cbn; [intros r Hr; inversion Hr | discriminate]. Qed.

(** X6: when some watched identifier (or the broadcast id) has a row and
    nothing is raised, the output is a rearrangement of the rows whose
    identifier is outside the target list, each exactly as often as in the
    input, and of synthesized frames, of which there are at most as many
    as rows carrying [bam_id]. *)
Theorem X6_output_is_merge (self : MultiFrameDecoder) (p : Profile)
    (bam_id_hex : string) (bam_id res_id : Z) (out : DataFrame) :
  bam_id_of bam_id_hex = Ok bam_id ->
  res_id ∈ res_id_list self ->
  isin [res_id; bam_id] (df_raw self) ≠ [] ->
  combine_tp_frames self p bam_id_hex = Ok (Some out) ->
  ∃ tp, out ≡ₚ not_isin (res_id_list self) (df_raw self) ++ tp
        ∧ Forall (synthesized self p bam_id) tp
        ∧ (length tp <= length (isin [bam_id] (df_raw self)))%nat.
Proof.
  intros Hbam Hres Hne Hrun. unfold combine_tp_frames in Hrun.
  destruct (groupby BusChannel (df_raw self)) as [|[channel df_raw_channel] gs];
    [discriminate|].
  inv_bind Hrun as [h st] Hloop. inversion Hrun; subst out; clear Hrun.
  destruct (for_each_merged_with _ _ _ _ _ Hbam _ _ Hloop (res_inv_init _ _ _))
    as (tp & Htp & Hsyn & Hlen); [right; eauto|].
  exists tp. cbn [snd] in Htp. rewrite sort_index_perm, Htp. auto.
Qed.

Lemma X6_output_is_merge_witness :
  ∃ tp, uds_id0_output ≡ₚ not_isin [0x7E8] uds_id0_table ++ tp
        ∧ Forall (synthesized (mkDecoder uds_id0_table [0x7E8]) uds_profile 0) tp
        ∧ (length tp <= length (isin [0%Z] uds_id0_table))%nat.
Proof.
  apply (X6_output_is_merge (mkDecoder uds_id0_table [0x7E8]) uds_profile EmptyString
           0 0x7E8 uds_id0_output).
  - reflexivity.
  - in_list.
  - vm_compute. discriminate.
  - vm_compute. reflexivity.
Defined.

(** X7: when no row of the table carries [bam_id] (identifier 0 under
    the ISO-TP and NMEA presets), nothing is ever synthesized: every row
    of the output is an input row whose identifier is outside the target
    list. *)
Theorem X7_no_announce_no_synthesis (self : MultiFrameDecoder) (p : Profile)
    (bam_id_hex : string) (bam_id : Z) (out : DataFrame) :
  bam_id_of bam_id_hex = Ok bam_id ->
  (∀ r, r ∈ df_raw self -> ID r.2 ≠ bam_id) ->
  combine_tp_frames self p bam_id_hex = Ok (Some out) ->
  ∀ r, r ∈ out -> passed_through self r.
Proof.
  intros Hbam Hnone Hrun r Hr. unfold combine_tp_frames in Hrun.
  destruct (groupby BusChannel (df_raw self)) as [|[channel df_raw_channel] gs];
    [discriminate|].
  inv_bind Hrun as [h st] Hloop. inversion Hrun; subst out; clear Hrun.
  apply (proj1 (elem_of_sort_index _ _)) in Hr.
  assert (Hinv : res_inv self p bam_id (h, st)).
  { eapply (for_each_inv (res_inv self p bam_id) (fun _ => True));
      [| |apply res_inv_init|exact Hloop].
    - intros s x s' _ Hs Hstep. eapply res_id_body_inv; eauto.
    - apply Forall_forall. auto. }
  destruct (proj1 Hinv r Hr) as [Hp|(_ & _ & r0 & Hr0 & Hopen & _)]; [exact Hp|].
  apply opens_sequence_id in Hopen. exfalso. exact (Hnone r0 Hr0 Hopen).
Qed.

Lemma X7_no_announce_no_synthesis_witness :
  passed_through (mkDecoder uds_plain_table [0x7E8]) (3, raw 0x123 [0x01; 0x02; 0x03]).
Proof.
  apply (X7_no_announce_no_synthesis (mkDecoder uds_plain_table [0x7E8]) uds_profile
           EmptyString 0 [(3, raw 0x123 [0x01; 0x02; 0x03])]).
  - reflexivity.
  - intros r Hr. cbn [df_raw uds_plain_table] in Hr. unfold uds_plain_table in Hr.
    each_row Hr; discriminate.
  - vm_compute. reflexivity.
  - in_list.
Defined.

(** *** Fields taken from the template *)

Lemma rebuilt_from_template bam_id_hex f0 f payload cid :
  from_template bam_id_hex f0 f ->
  (bam_id_hex = EmptyString -> cid = None) ->
  from_template bam_id_hex f0 (rebuilt f payload cid).
Proof.
  intros (Hc & Hi & Hid) Hcid. unfold from_template, rebuilt. cbn.
  repeat split; try assumption.
  intros E. rewrite (Hcid E). cbn. auto.
Qed.

Lemma row_body_tmpl p bam_id_hex bam_id f0 base_frame (s s' : heap * Locals) (r : Row) :
  tmpl_inv bam_id_hex f0 base_frame s ->
  row_body p bam_id_hex bam_id base_frame s r = Ok s' ->
  tmpl_inv bam_id_hex f0 base_frame s'.
Proof.
  intros Hinv Hstep. destruct s as [h st].
  destruct (index0 (DataBytes r.2)) as [b|e] eqn:Hb.
  2:{ destruct r as [index row]. unfold row_body in Hstep. cbn [snd] in Hb.
      rewrite Hb in Hstep. discriminate. }
  destruct (is_single p b) eqn:Hs.
  { destruct r as [index row].
    rewrite (row_body_single _ _ _ _ _ _ _ b) in Hstep by assumption. discriminate. }
  destruct (is_first p bam_id b (ID r.2)) eqn:Hf.
  - assert (Hopen : opens_sequence p bam_id r) by (exists b; auto).
    rewrite (row_body_first _ _ _ _ _ _ Hopen) in Hstep.
    inv_bind Hstep as [h1 st1] Hflush. inv_bind Hstep as cid Hcid.
    inversion Hstep; subst s'; clear Hstep.
    destruct Hinv as ((f & Hf0 & Hft) & Hnone & Hall). cbn [fst snd] in *.
    assert (Hfl : tmpl_inv bam_id_hex f0 base_frame (h1, st1)).
    { destruct (payload_concatenated st) as [|x l] eqn:E.
      - rewrite flush_empty in Hflush by exact E. inversion Hflush; subst.
        repeat split; eauto.
      - rewrite (flush_nonempty _ _ _ f) in Hflush by congruence.
        inv_bind Hflush as t Ht. inversion Hflush; subst h1 st1; clear Hflush.
        pose proof (rebuilt_from_template _ _ _ (payload_concatenated st) _ Hft Hnone)
          as Hreb.
        split; [|split].
        + cbn. rewrite lookup_insert_eq. eauto.
        + exact Hnone.
        + cbn. apply Forall_app. split; [exact Hall|]. repeat constructor; apply Hreb. }
    destruct Hfl as (Hbase1 & Hnone1 & Hall1). cbn [fst snd] in *.
    split; [exact Hbase1|]. split; [|exact Hall1].
    cbn. intros E. rewrite E in Hcid. cbn in Hcid. inversion Hcid. auto.
  - destruct (is_conseq p b) eqn:Hc.
    + assert (Hcont : continues_sequence p bam_id r) by (exists b; auto).
      rewrite (row_body_conseq _ _ _ _ _ _ _ Hcont) in Hstep.
      inversion Hstep; subst s'. exact Hinv.
    + destruct r as [index row]. unfold row_body in Hstep. cbn [snd] in *.
      rewrite Hb in Hstep. cbn [mbind result_bind] in Hstep.
      rewrite Hs, Hf, Hc in Hstep. inversion Hstep; subst s'. exact Hinv.
Qed.

Lemma res_id_body_tmpl self p bam_id_hex bam_id (s s' : heap * Locals) (res_id : Z) :
  bam_id_of bam_id_hex = Ok bam_id ->
  res_id ∈ res_id_list self ->
  tmpl_res_inv self bam_id_hex bam_id s ->
  res_id_body self p bam_id_hex s res_id = Ok s' ->
  tmpl_res_inv self bam_id_hex bam_id s'.
Proof.
  intros Hbam Hres Hinv Hbody. destruct s as [h st]. unfold res_id_body in Hbody.
  rewrite Hbam in Hbody. cbn [mbind result_bind] in Hbody.
  destruct (isin [res_id; bam_id] (df_raw self)) as [|row0 rest] eqn:Efilter.
  { inversion Hbody; subst s'. exact Hinv. }
  pose proof (alloc_lookup h row0.2) as Halloc.
  destruct (alloc h row0.2) as [h0 base_frame]. cbn [fst snd] in Halloc.
  inv_bind Hbody as [h1 st1] Hloop. inversion Hbody; subst s'; clear Hbody.
  assert (Hrow : tmpl_inv bam_id_hex row0.2 base_frame (h1, st1)).
  { eapply (for_each_inv (tmpl_inv bam_id_hex row0.2 base_frame) (fun _ : Row => True));
      [| |
       |exact Hloop].
    - intros s x s' _ Hs Hstep. eapply row_body_tmpl; eauto.
    - apply Forall_forall. auto.
    - split; [|split]; cbn.
      + exists row0.2. split; [exact Halloc|]. unfold from_template. auto.
      + auto.
      + constructor. }
  destruct Hrow as (_ & _ & Hall). cbn [fst snd] in Hall.
  intros r Hr. cbn [snd df_raw_combined] in Hr.
  apply elem_of_app in Hr as [Hr|Hr].
  - left. apply elem_of_not_isin in Hr. exact Hr.
  - right. exists res_id, row0, rest. split; [exact Hres|]. split; [exact Efilter|].
    unfold df_raw_tp in Hr. destruct r as [t f]. apply elem_of_zip_r in Hr.
    rewrite Forall_forall in Hall. apply Hall. exact Hr.
Qed.

(** X8: every row of the output that did not pass through takes its
    channel and its other untouched columns from the first row of the
    filtered table of some watched identifier, whatever channel its
    fragments were on, and, without a broadcast id, its identifier too. *)
Theorem X8_synthesized_fields_from_first_row (self : MultiFrameDecoder) (p : Profile)
    (bam_id_hex : string) (bam_id : Z) (out : DataFrame) :
  bam_id_of bam_id_hex = Ok bam_id ->
  combine_tp_frames self p bam_id_hex = Ok (Some out) ->
  ∀ r, r ∈ out ->
    passed_through self r
    ∨ ∃ res_id row0 rest,
        res_id ∈ res_id_list self
        ∧ isin [res_id; bam_id] (df_raw self) = row0 :: rest
        ∧ BusChannel r.2 = BusChannel row0.2
        ∧ IDE r.2 = IDE row0.2
        ∧ (bam_id_hex = EmptyString -> ID r.2 = ID row0.2).
Proof.
  intros Hbam Hrun r Hr. unfold combine_tp_frames in Hrun.
  destruct (groupby BusChannel (df_raw self)) as [|[channel df_raw_channel] gs];
    [discriminate|].
  inv_bind Hrun as [h st] Hloop. inversion Hrun; subst out; clear Hrun.
  apply (proj1 (elem_of_sort_index _ _)) in Hr.
  assert (Hinv : tmpl_res_inv self bam_id_hex bam_id (h, st)).
  { eapply (for_each_inv (tmpl_res_inv self bam_id_hex bam_id)
                         (fun res_id => res_id ∈ res_id_list self));
      [| |
       |exact Hloop].
    - intros s x s' Hx Hs Hstep. eapply res_id_body_tmpl; eauto.
    - apply Forall_forall. auto.
    - intros r0 Hr0. inversion Hr0. }
  exact (Hinv r Hr).
Qed.

Lemma X8_synthesized_fields_from_first_row_witness :
  passed_through (mkDecoder uds_id0_table [0x7E8]) (2, uds_id0_frame)
  ∨ ∃ res_id row0 rest,
      res_id ∈ [0x7E8]
      ∧ isin [res_id; 0] uds_id0_table = row0 :: rest
      ∧ BusChannel uds_id0_frame = BusChannel row0.2
      ∧ IDE uds_id0_frame = IDE row0.2
      ∧ (EmptyString = EmptyString -> ID uds_id0_frame = ID row0.2).
Proof.
  apply (X8_synthesized_fields_from_first_row (mkDecoder uds_id0_table [0x7E8])
           uds_profile EmptyString 0 uds_id0_output).
  - reflexivity.
  - vm_compute. reflexivity.
  - in_list.
Defined.

(** *** The identifier of a synthesized frame under a broadcast id *)

Lemma bam_can_id_nonzero (payload : list Z) (c : Z) :
  bam_can_id payload = Ok c -> truthy (Some c) = true.
Proof.
  unfold bam_can_id. intros H. inv_bind H as pgn Hpgn. inversion H as [E].
  cbn. apply negb_true_iff, Z.eqb_neq. intros E0.
  apply Z.lor_eq_0_iff in E0 as [_ E0]. discriminate.
Qed.

Lemma row_body_announced self p bam_id_hex bam_id f0 base_frame
    (s s' : heap * Locals) (r : Row) :
  bam_id_hex ≠ EmptyString ->
  r ∈ df_raw self ->
  announced_inv self bam_id f0 base_frame s ->
  row_body p bam_id_hex bam_id base_frame s r = Ok s' ->
  announced_inv self bam_id f0 base_frame s'.
Proof.
  intros Hhex Hr Hinv Hstep. destruct s as [h st].
  assert (Ehex : String.eqb bam_id_hex EmptyString = false)
    by (apply String.eqb_neq; exact Hhex).
  destruct (index0 (DataBytes r.2)) as [b|e] eqn:Hb.
  2:{ destruct r as [index row]. unfold row_body in Hstep. cbn [snd] in Hb.
      rewrite Hb in Hstep. discriminate. }
  destruct (is_single p b) eqn:Hs.
  { destruct r as [index row].
    rewrite (row_body_single _ _ _ _ _ _ _ b) in Hstep by assumption. discriminate. }
  destruct (is_first p bam_id b (ID r.2)) eqn:Hf.
  - assert (Hopen : opens_sequence p bam_id r) by (exists b; auto).
    rewrite (row_body_first _ _ _ _ _ _ Hopen), Ehex in Hstep.
    inv_bind Hstep as [h1 st1] Hflush. inv_bind Hstep as cid Hcid.
    inv_bind Hcid as c Hc. inversion Hcid; subst cid; clear Hcid.
    inversion Hstep; subst s'; clear Hstep.
    destruct Hinv as ((f & Hf0 & Hfid) & Hlen & Hcan & Htp). cbn [fst snd] in *.
    assert (Hfl : (∃ f1, h1 !! base_frame = Some f1)
                  ∧ length (frame_timestamp_list st1) = length (frame_list st1)
                  ∧ Forall (id_announced self bam_id f0) (df_raw_tp st1)).
    { destruct (payload_concatenated st) as [|x l] eqn:E.
      - rewrite flush_empty in Hflush by exact E. inversion Hflush; subst. eauto.
      - rewrite (flush_nonempty _ _ _ f) in Hflush by congruence.
        inv_bind Hflush as t Ht. inversion Hflush; subst h1 st1; clear Hflush.
        unfold read_frame_timestamp in Ht.
        destruct (frame_timestamp st) as [t'|] eqn:Et; [|discriminate].
        inversion Ht; subst t'; clear Ht.
        split; [rewrite lookup_insert_eq; eauto|].
        split; [cbn; rewrite !length_app; cbn; lia|].
        unfold df_raw_tp, emit. cbn [frame_list frame_timestamp_list].
        rewrite (zip_with_app pair _ [t] _
                   [rebuilt f (payload_concatenated st) (can_id st)] Hlen).
        apply Forall_app. split; [exact Htp|].
        constructor; [|constructor].
        unfold id_announced, rebuilt. cbn [snd ID TimeStamp fst].
        destruct (can_id st) as [c0|] eqn:Ec.
        + destruct (Hcan c0 eq_refl) as (r0 & Hr0 & Hid0 & Hts0 & Hc0).
          left. exists r0. rewrite (bam_can_id_nonzero _ _ Hc0). cbn.
          repeat split; try assumption. congruence.
        + right. cbn. auto. }
    destruct Hfl as ((f1 & Hf1) & Hlen1 & Htp1).
    split; [|split; [|split]]; cbn.
    + exists f1. split; [exact Hf1 | discriminate].
    + exact Hlen1.
    + intros c' [= <-]. exists r. repeat split; try assumption.
      apply opens_sequence_id in Hopen. exact Hopen.
    + exact Htp1.
  - destruct (is_conseq p b) eqn:Hc.
    + assert (Hcont : continues_sequence p bam_id r) by (exists b; auto).
      rewrite (row_body_conseq _ _ _ _ _ _ _ Hcont) in Hstep.
      inversion Hstep; subst s'. exact Hinv.
    + destruct r as [index row]. unfold row_body in Hstep. cbn [snd] in *.
      rewrite Hb in Hstep. cbn [mbind result_bind] in Hstep.
      rewrite Hs, Hf, Hc in Hstep. inversion Hstep; subst s'. exact Hinv.
Qed.

Lemma res_id_body_announced self p bam_id_hex bam_id (s s' : heap * Locals)
    (res_id : Z) :
  bam_id_hex ≠ EmptyString ->
  bam_id_of bam_id_hex = Ok bam_id ->
  res_id ∈ res_id_list self ->
  announced_res_inv self bam_id s ->
  res_id_body self p bam_id_hex s res_id = Ok s' ->
  announced_res_inv self bam_id s'.
Proof.
  intros Hhex Hbam Hres Hinv Hbody. destruct s as [h st]. unfold res_id_body in Hbody.
  rewrite Hbam in Hbody. cbn [mbind result_bind] in Hbody.
  destruct (isin [res_id; bam_id] (df_raw self)) as [|row0 rest] eqn:Efilter.
  { inversion Hbody; subst s'. exact Hinv. }
  pose proof (alloc_lookup h row0.2) as Halloc.
  destruct (alloc h row0.2) as [h0 base_frame]. cbn [fst snd] in Halloc.
  inv_bind Hbody as [h1 st1] Hloop. inversion Hbody; subst s'; clear Hbody.
  assert (Hrow : announced_inv self bam_id row0.2 base_frame (h1, st1)).
  { eapply (for_each_inv (announced_inv self bam_id row0.2 base_frame)
                         (fun r => r ∈ df_raw self));
      [| |
       |exact Hloop].
    - intros s x s' Hx Hs Hstep. eapply row_body_announced; eauto.
    - rewrite <- Efilter. apply Forall_forall. intros r Hr.
      apply elem_of_isin in Hr. tauto.
    - split; [|split; [|split]]; cbn.
      + eauto.
      + reflexivity.
      + discriminate.
      + constructor. }
  destruct Hrow as (_ & _ & _ & Htp). cbn [fst snd] in Htp.
  intros r Hr. cbn [snd df_raw_combined] in Hr.
  apply elem_of_app in Hr as [Hr|Hr].
  - left. apply elem_of_not_isin in Hr. exact Hr.
  - right. exists res_id, row0, rest. split; [exact Hres|]. split; [exact Efilter|].
    rewrite Forall_forall in Htp. apply Htp. exact Hr.
Qed.

(** X9: with a broadcast id, every row of the output that did not pass
    through carries the identifier computed from the payload of an
    announce row with the same time stamp, or, when it was flushed before
    any announce row of its pass, the identifier of the first row of the
    filtered table. *)
Theorem X9_synthesized_id_announced (self : MultiFrameDecoder) (p : Profile)
    (bam_id_hex : string) (bam_id : Z) (out : DataFrame) :
  bam_id_hex ≠ EmptyString ->
  bam_id_of bam_id_hex = Ok bam_id ->
  combine_tp_frames self p bam_id_hex = Ok (Some out) ->
  ∀ r, r ∈ out ->
    passed_through self r
    ∨ (∃ r0, r0 ∈ df_raw self ∧ ID r0.2 = bam_id ∧ TimeStamp r0 = TimeStamp r
             ∧ bam_can_id (DataBytes r0.2) = Ok (ID r.2))
    ∨ (∃ res_id row0 rest,
         res_id ∈ res_id_list self
         ∧ isin [res_id; bam_id] (df_raw self) = row0 :: rest
         ∧ ID r.2 = ID row0.2).
Proof.
  intros Hhex Hbam Hrun r Hr. unfold combine_tp_frames in Hrun.
  destruct (groupby BusChannel (df_raw self)) as [|[channel df_raw_channel] gs];
    [discriminate|].
  inv_bind Hrun as [h st] Hloop. inversion Hrun; subst out; clear Hrun.
  apply (proj1 (elem_of_sort_index _ _)) in Hr.
  assert (Hinv : announced_res_inv self bam_id (h, st)).
  { eapply (for_each_inv (announced_res_inv self bam_id)
                         (fun res_id => res_id ∈ res_id_list self));
      [| |
       |exact Hloop].
    - intros s x s' Hx Hs Hstep. eapply res_id_body_announced; eauto.
    - apply Forall_forall. auto.
    - intros r0 Hr0. inversion Hr0. }
  destruct (Hinv r Hr) as [Hp|(res_id & row0 & rest & Hres & Hfilter & [Ha|Ht])].
  - left. exact Hp.
  - right. left. exact Ha.
  - right. right. exists res_id, row0, rest. auto.
Qed.

Lemma X9_synthesized_id_announced_witness :
  passed_through (mkDecoder (j1939_table ++ [(4, bam_announce)]) [0x1CEBFF00])
                 (1, j1939_frame)
  ∨ (∃ r0, r0 ∈ j1939_table ++ [(4, bam_announce)]
           ∧ ID r0.2 = 0x1CECFF00 ∧ TimeStamp r0 = 1
           ∧ bam_can_id (DataBytes r0.2) = Ok (ID j1939_frame))
  ∨ (∃ res_id row0 rest,
       res_id ∈ [0x1CEBFF00]
       ∧ isin [res_id; 0x1CECFF00] (j1939_table ++ [(4, bam_announce)]) = row0 :: rest
       ∧ ID j1939_frame = ID row0.2).
Proof.
  apply (X9_synthesized_id_announced
           (mkDecoder (j1939_table ++ [(4, bam_announce)]) [0x1CEBFF00])
           j1939_profile "1CECFF00" 0x1CECFF00
           [(1, bam_announce); (1, j1939_frame); (4, bam_announce)]).
  - discriminate.
  - reflexivity.
  - vm_compute. reflexivity.
  - in_list.
Defined.

(** *** When nothing is raised *)

Lemma flush_ok base_frame h st :
  is_Some (frame_timestamp st) ∨ payload_concatenated st = [] ->
  ∃ h1 st1, flush base_frame (h, st) = Ok (h1, st1)
            ∧ frame_timestamp st1 = frame_timestamp st
            ∧ can_id st1 = can_id st.
Proof.
  intros Hcase. unfold flush.
  destruct (0 <? Z.of_nat (length (payload_concatenated st))) eqn:E.
  - destruct Hcase as [[t Ht]|Hnil].
    + destruct (construct_new_tp_frame h base_frame _ _) as [h2 nf].
      unfold read_frame_timestamp. rewrite Ht. cbn. eauto.
    + rewrite Hnil in E. discriminate.
  - eauto.
Qed.

Lemma for_each_rows_ok p bam_id_hex bam_id base_frame (rows : DataFrame) :
  Forall (row_ok p bam_id_hex bam_id) rows ->
  ∀ h st, flush_safe bam_id st rows ->
    ∃ h' st', for_each (row_body p bam_id_hex bam_id base_frame) rows (h, st)
              = Ok (h', st')
              ∧ (is_Some (frame_timestamp st) -> is_Some (frame_timestamp st')).
Proof.
  induction 1 as [|r rows (b & Hb & Hs & Hpgn) _ IH]; intros h st Hsafe.
  - cbn. eauto.
  - cbn [for_each].
    destruct (Z.eq_dec (ID r.2) bam_id) as [Eid|Nid].
    + assert (Hopen : opens_sequence p bam_id r).
      { exists b. repeat split; try assumption. rewrite is_first_by_id.
        apply Z.eqb_eq. congruence. }
      rewrite (row_body_first _ _ _ _ _ _ Hopen).
      destruct (flush_ok base_frame h st) as (h1 & st1 & -> & _ & _).
      { destruct Hsafe as [H|[H|(H & _)]]; [left; exact H | | right; exact H].
        exfalso. apply (H r); [left | exact Eid]. }
      cbn [mbind result_bind].
      assert (Hcid : ∃ cid, (if String.eqb bam_id_hex EmptyString
                             then Ok (can_id st1)
                             else c ← bam_can_id (DataBytes r.2); Ok (Some c)) = Ok cid).
      { destruct (String.eqb_spec bam_id_hex EmptyString) as [E|E]; [eauto|].
        destruct (Hpgn Eid) as [E'|[Hlen Hbytes]]; [contradiction|].
        rewrite bam_can_id_value by assumption. cbn. eauto. }
      destruct Hcid as [cid ->]. cbn [mbind result_bind].
      destruct (IH h1 (open_sequence p st1 r.1 (DataBytes r.2) cid))
        as (h' & st' & Hrun & Hts).
      { left. cbn. eauto. }
      exists h', st'. split; [exact Hrun|]. intros _. apply Hts. cbn. eauto.
    + assert (Hnf : is_first p bam_id b (ID r.2) = false).
      { rewrite is_first_by_id. apply Z.eqb_neq. congruence. }
      assert (Hstep : ∃ st1, row_body p bam_id_hex bam_id base_frame (h, st) r
                             = Ok (h, st1)
                             ∧ frame_timestamp st1 = frame_timestamp st).
      { destruct (is_conseq p b) eqn:Hc.
        - rewrite row_body_conseq by (exists b; auto). eexists. split; reflexivity.
        - destruct r as [index row]. cbn [snd] in *. unfold row_body.
          rewrite Hb. cbn [mbind result_bind]. rewrite Hs, Hnf, Hc. eauto. }
      destruct Hstep as (st1 & -> & Hts1). cbn [mbind result_bind].
      destruct (IH h st1) as (h' & st' & Hrun & Hts).
      { destruct Hsafe as [H|[H|(_ & r' & rest & E & Hid)]].
        - left. rewrite Hts1. exact H.
        - right. left. intros r' Hr'. apply H. right. exact Hr'.
        - inversion E; subst. contradiction. }
      exists h', st'. split; [exact Hrun|]. rewrite Hts1 in Hts. exact Hts.
Qed.

(** X10: [combine_tp_frames] returns a table, and raises nothing, when the
    table is not empty, [bam_id_hex] parses, every row of a watched
    identifier or of [bam_id] has a non-empty payload that is not a single
    frame, every row of [bam_id] has at least six payload bytes when a
    broadcast id is given, and either no row carries [bam_id] or the
    filtered table of every watched identifier starts with a row of
    [bam_id]. *)
Theorem X10_combine_returns_table (self : MultiFrameDecoder) (p : Profile)
    (bam_id_hex : string) (bam_id : Z) :
  bam_id_of bam_id_hex = Ok bam_id ->
  df_raw self ≠ [] ->
  (∀ r, r ∈ df_raw self -> ID r.2 ∈ bam_id :: res_id_list self ->
        row_ok p bam_id_hex bam_id r) ->
  ((∀ r, r ∈ df_raw self -> ID r.2 ≠ bam_id)
   ∨ (∀ res_id r rest, res_id ∈ res_id_list self ->
        isin [res_id; bam_id] (df_raw self) = r :: rest -> ID r.2 = bam_id)) ->
  ∃ out, combine_tp_frames self p bam_id_hex = Ok (Some out).
Proof.
  intros Hbam Hne Hok Hhead. unfold combine_tp_frames.
  destruct (df_raw self) as [|r0 df] eqn:Edf; [congruence|].
  destruct (groupby_cons BusChannel r0 df) as ([channel df_raw_channel] & gs & ->).
  rewrite <- Edf in *. clear Edf r0 df Hne.
  assert (Hloop : ∀ ids, (∀ x, x ∈ ids -> x ∈ res_id_list self) ->
            ∀ s, ∃ s', for_each (res_id_body self p bam_id_hex) ids s = Ok s').
  { induction ids as [|res_id ids IH]; intros Hsub [h st].
    - cbn. eauto.
    - cbn [for_each].
      assert (Hstep : ∃ s1, res_id_body self p bam_id_hex (h, st) res_id = Ok s1).
      { unfold res_id_body. rewrite Hbam. cbn [mbind result_bind].
        destruct (isin [res_id; bam_id] (df_raw self)) as [|row0 rest] eqn:Efilter;
          [eauto|].
        destruct (alloc h row0.2) as [h0 base_frame].
        destruct (for_each_rows_ok p bam_id_hex bam_id base_frame (row0 :: rest))
          with (h := h0)
               (st := mkLocals (df_raw_combined st) [] [] [] None (frame_timestamp st))
          as (h' & st' & -> & _).
        - rewrite <- Efilter. apply Forall_forall. intros r Hr.
          apply elem_of_isin in Hr as [Hr Hid]. apply Hok; [exact Hr|].
          rewrite !elem_of_cons in Hid. rewrite elem_of_cons.
          destruct Hid as [->|[->|Hid]]; [right; apply Hsub; left | left; reflexivity |].
          inversion Hid.
        - destruct Hhead as [Hnone|Hfirst].
          + right. left. intros r Hr. apply Hnone.
            rewrite <- Efilter in Hr. apply elem_of_isin in Hr. tauto.
          + right. right. split; [reflexivity|]. exists row0, rest.
            split; [reflexivity|]. eapply Hfirst; [apply Hsub; left | exact Efilter].
        - cbn. eauto. }
      destruct Hstep as [s1 ->]. cbn [mbind result_bind].
      apply IH. intros x Hx. apply Hsub. right. exact Hx. }
  destruct (Hloop (res_id_list self) ltac:(auto)
              (∅, mkLocals [] [] [] [] None None)) as [[h st] ->].
  cbn. eauto.
Qed.

Lemma X10_combine_returns_table_witness :
  ∃ out, combine_tp_frames_j1939
           (mkDecoder (j1939_table ++ [(4, bam_announce)]) [0x1CEBFF00]) "1CECFF00"
         = Ok (Some out).
Proof.
  apply (X10_combine_returns_table
           (mkDecoder (j1939_table ++ [(4, bam_announce)]) [0x1CEBFF00])
           j1939_profile "1CECFF00" 0x1CECFF00).
  - reflexivity.
  - discriminate.
  - intros r Hr _. cbn in Hr. each_row Hr.
    + exists 0x20. repeat split; try reflexivity. intros _. right. split; [cbn; lia | bytes].
    + exists 0x01. repeat split; try reflexivity. discriminate.
    + exists 0x02. repeat split; try reflexivity. discriminate.
    + exists 0x20. repeat split; try reflexivity. intros _. right. split; [cbn; lia | bytes].
  - right. intros res_id r rest Hres Hfilter.
    apply list_elem_of_singleton in Hres. subst res_id.
    vm_compute in Hfilter. inversion Hfilter. reflexivity.
Defined.

(** *** One sequence, for every profile *)

Lemma sequence_run p bam_id_hex bam_id base_frame (s s3 : heap * Locals)
    (first next : Row) (datas : DataFrame) :
  opens_sequence p bam_id first ->
  Forall (continues_sequence p bam_id) datas ->
  opens_sequence p bam_id next ->
  for_each (row_body p bam_id_hex bam_id base_frame)
           ([first] ++ datas ++ [next]) s = Ok s3 ->
  ∃ h1 st1 cid h3 st3 cid3,
    row_body p bam_id_hex bam_id base_frame s first
    = Ok (h1, open_sequence p st1 first.1 (DataBytes first.2) cid)
    ∧ flush base_frame
        (h1, add_payload (open_sequence p st1 first.1 (DataBytes first.2) cid)
                         (conseq_bytes p datas))
      = Ok (h3, st3)
    ∧ s3 = (h3, open_sequence p st3 next.1 (DataBytes next.2) cid3)
    ∧ (is_Some (s.1 !! base_frame) -> is_Some (h1 !! base_frame)).
Proof.
  intros Hopen Hdatas Hnext Hrun.
  change ([first] ++ datas ++ [next]) with (first :: (datas ++ [next])) in Hrun.
  cbn [for_each] in Hrun. inv_bind Hrun as [h1 st1'] Hstep1.
  pose proof Hstep1 as Hstep1'.
  rewrite (row_body_first _ _ _ _ _ _ Hopen) in Hstep1'.
  inv_bind Hstep1' as [h0 st0] Hfl0. inv_bind Hstep1' as cid Hcid.
  inversion Hstep1'; subst h1 st1'; clear Hstep1'.
  rewrite for_each_app in Hrun.
  rewrite (for_each_conseq _ _ _ _ _ _ _ Hdatas) in Hrun.
  cbn [for_each mbind result_bind] in Hrun.
  inv_bind Hrun as s3' Hstep3. inversion Hrun; subst s3'; clear Hrun.
  rewrite (row_body_first _ _ _ _ _ _ Hnext) in Hstep3.
  inv_bind Hstep3 as [h3 st3] Hfl3. inv_bind Hstep3 as cid3 Hcid3.
  inversion Hstep3; subst s3; clear Hstep3.
  exists h0, st0, cid, h3, st3, cid3. repeat split; try assumption.
  intros Hbase. exact (flush_is_Some _ _ _ Hfl0 Hbase).
Qed.

(** X11: for every profile, a row that opens a sequence, consecutive
    rows and the next row that opens a sequence make the row loop emit one
    frame at that last row: its payload is the first row's bytes from the
    first-frame offset on followed by the consecutive rows' bytes from the
    consecutive offset on, in arrival order; its declared length is their
    count, its DLC is 0 and its index is the first row's time stamp. *)
Theorem X11_sequence_reassembled (p : Profile) (bam_id_hex : string) (bam_id : Z)
    (base_frame : loc) (s s3 : heap * Locals) (first next : Row) (datas : DataFrame) :
  is_Some (s.1 !! base_frame) ->
  opens_sequence p bam_id first ->
  Forall (continues_sequence p bam_id) datas ->
  opens_sequence p bam_id next ->
  sequence_bytes p first datas ≠ [] ->
  for_each (row_body p bam_id_hex bam_id base_frame)
           ([first] ++ datas ++ [next]) s = Ok s3 ->
  ∃ s1 f,
    row_body p bam_id_hex bam_id base_frame s first = Ok s1
    ∧ frame_list s3.2 = frame_list s1.2 ++ [f]
    ∧ frame_timestamp_list s3.2 = frame_timestamp_list s1.2 ++ [TimeStamp first]
    ∧ DataBytes f = sequence_bytes p first datas
    ∧ DataLength f = Z.of_nat (length (sequence_bytes p first datas))
    ∧ DLC f = 0.
Proof.
  intros Hbase Hopen Hdatas Hnext Hne Hrun.
  destruct (sequence_run _ _ _ _ _ _ _ _ _ Hopen Hdatas Hnext Hrun)
    as (h1 & st1 & cid & h3 & st3 & cid3 & Hstep1 & Hfl & -> & Hb1).
  destruct (Hb1 Hbase) as [f1 Hf1].
  rewrite (flush_nonempty _ _ _ f1) in Hfl; [|exact Hne|exact Hf1].
  cbn [read_frame_timestamp add_payload open_sequence frame_timestamp
       mbind result_bind] in Hfl.
  inversion Hfl; subst h3 st3; clear Hfl.
  eexists. eexists. split; [exact Hstep1|].
  cbn. repeat split; reflexivity.
Qed.

Lemma X11_sequence_reassembled_witness :
  ∃ s1 f,
    row_body j1939_profile "1CECFF00" 0x1CECFF00 0%nat j1939_start
             (1, bam_announce) = Ok s1
    ∧ frame_list j1939_end.2 = frame_list s1.2 ++ [f]
    ∧ frame_timestamp_list j1939_end.2 = frame_timestamp_list s1.2 ++ [1]
    ∧ DataBytes f
      = sequence_bytes j1939_profile (1, bam_announce) [(2, bam_data_1); (3, bam_data_2)]
    ∧ DataLength f
      = Z.of_nat (length (sequence_bytes j1939_profile (1, bam_announce)
                                         [(2, bam_data_1); (3, bam_data_2)]))
    ∧ DLC f = 0.
Proof.
  apply (X11_sequence_reassembled j1939_profile "1CECFF00" 0x1CECFF00 0%nat
           j1939_start j1939_end
           (1, bam_announce) (4, bam_announce) [(2, bam_data_1); (3, bam_data_2)]).
  - cbn. rewrite lookup_singleton_eq. eauto.
  - exists 0x20. repeat split; reflexivity.
  - repeat constructor.
    + exists 0x01. repeat split; reflexivity.
    + exists 0x02. repeat split; reflexivity.
  - exists 0x20. repeat split; reflexivity.
  - discriminate.
  - vm_compute. reflexivity.
Defined.

(** X12: a sequence that gathered no byte is dropped: when the bytes of
    the first row and of its consecutive rows are empty, the next row that
    opens a sequence emits nothing and only moves the start time stamp. *)
Theorem X12_empty_sequence_dropped (p : Profile) (bam_id_hex : string) (bam_id : Z)
    (base_frame : loc) (s s3 : heap * Locals) (first next : Row) (datas : DataFrame) :
  opens_sequence p bam_id first ->
  Forall (continues_sequence p bam_id) datas ->
  opens_sequence p bam_id next ->
  sequence_bytes p first datas = [] ->
  for_each (row_body p bam_id_hex bam_id base_frame)
           ([first] ++ datas ++ [next]) s = Ok s3 ->
  ∃ s1,
    row_body p bam_id_hex bam_id base_frame s first = Ok s1
    ∧ frame_list s3.2 = frame_list s1.2
    ∧ frame_timestamp_list s3.2 = frame_timestamp_list s1.2
    ∧ frame_timestamp s3.2 = Some (TimeStamp next).
Proof.
  intros Hopen Hdatas Hnext Hnil Hrun.
  destruct (sequence_run _ _ _ _ _ _ _ _ _ Hopen Hdatas Hnext Hrun)
    as (h1 & st1 & cid & h3 & st3 & cid3 & Hstep1 & Hfl & -> & _).
  rewrite flush_empty in Hfl by exact Hnil.
  inversion Hfl; subst h3 st3; clear Hfl.
  eexists. split; [exact Hstep1|]. cbn. repeat split; reflexivity.
Qed.

Lemma X12_empty_sequence_dropped_witness :
  ∃ s1,
    row_body j1939_profile "1CECFF00" 0x1CECFF00 0%nat j1939_start
             (1, bam_announce) = Ok s1
    ∧ frame_list j1939_idle.2 = frame_list s1.2
    ∧ frame_timestamp_list j1939_idle.2 = frame_timestamp_list s1.2
    ∧ frame_timestamp j1939_idle.2 = Some 4.
Proof.
  apply (X12_empty_sequence_dropped j1939_profile "1CECFF00" 0x1CECFF00 0%nat
           j1939_start j1939_idle (1, bam_announce) (4, bam_announce) []).
  - exists 0x20. repeat split; reflexivity.
  - constructor.
  - exists 0x20. repeat split; reflexivity.
  - reflexivity.
  - vm_compute. reflexivity.
Defined.

(** *** Two calls on one template *)

(** X13: two calls of [construct_new_tp_frame] on one template amount to
    the second call alone, except that an identifier written by the first
    call stays when the second supplies none (or 0). *)
Theorem X13_construct_twice (h : heap) (base_frame : loc) (f : Frame)
    (payload1 payload2 : list Z) (c1 c2 : option Z) :
  h !! base_frame = Some f ->
  construct_new_tp_frame
    (construct_new_tp_frame h base_frame payload1 c1).1 base_frame payload2 c2
  = construct_new_tp_frame h base_frame payload2 (later_id c1 c2).
Proof.
  intros Hf.
  rewrite (construct_new_tp_frame_at h base_frame f payload1 c1 Hf). cbn [fst].
  rewrite (construct_new_tp_frame_at _ base_frame (rebuilt f payload1 c1) payload2 c2)
    by apply lookup_insert_eq.
  rewrite (construct_new_tp_frame_at h base_frame f payload2 _ Hf).
  rewrite insert_insert_eq. f_equal. f_equal.
  unfold rebuilt, later_id. cbn. destruct (truthy c2) eqn:E; cbn; rewrite ?E; reflexivity.
Qed.

Lemma X13_construct_twice_witness :
  construct_new_tp_frame
    (construct_new_tp_frame {[ 0%nat := bam_data_1 ]} 0%nat [0x01] (Some pgn_01FE00_id)).1
    0%nat [0x02; 0x03] None
  = construct_new_tp_frame {[ 0%nat := bam_data_1 ]} 0%nat [0x02; 0x03]
                           (later_id (Some pgn_01FE00_id) None).
Proof.
  apply (X13_construct_twice {[ 0%nat := bam_data_1 ]} 0%nat bam_data_1).
  reflexivity.
Defined.

(** *** Groups of [decode_tp_data] *)

Lemma foldl_append_bind {A B : Type} (f : A -> list B) (gs : list A) (acc : list B) :
  foldl (fun acc g => acc ++ f g) acc gs = acc ++ (gs ≫= f).
Proof.
  revert acc. induction gs as [|g gs IH]; intros acc; cbn [foldl].
  - rewrite app_nil_r. reflexivity.
  - rewrite IH, bind_cons, app_assoc. reflexivity.
Qed.

Lemma elem_of_groupby (col : Frame -> Z) (df : DataFrame) (k : Z) (g : DataFrame) :
  (k, g) ∈ groupby col df
  <-> (∃ r, r ∈ df ∧ col r.2 = k) ∧ g = filter (fun r : Row => col r.2 = k) df.
Proof.
  unfold groupby. rewrite list_elem_of_fmap. split.
  - intros (k' & E & Hk'). inversion E; subst k' g. split; [|reflexivity].
    rewrite merge_sort_Permutation, elem_of_remove_dups in Hk'.
    apply list_elem_of_fmap in Hk' as (f & -> & Hf).
    apply list_elem_of_fmap in Hf as (r & -> & Hr). eauto.
  - intros [(r & Hr & <-) ->]. exists (col r.2). split; [reflexivity|].
    rewrite merge_sort_Permutation, elem_of_remove_dups.
    apply list_elem_of_fmap_2, list_elem_of_fmap_2. exact Hr.
Qed.

Lemma decode_tp_data_perm {P : Type} (decode_frame : DataFrame -> list (Z * P))
    (df : DataFrame) :
  decode_tp_data decode_frame df
  ≡ₚ groupby DataLength df ≫= (fun g => decode_frame g.2).
Proof.
  unfold decode_tp_data. rewrite sort_index_perm, foldl_append_bind. reflexivity.
Qed.

(** X14: a decoded row is in the result of [decode_tp_data] exactly when
    the decoder returns it for the group of all rows that share the declared
    length of some row of the table: each call of the decoder gets one
    complete, non-empty group of equal declared length. *)
Theorem X14_decode_tp_data_groups {P : Type} (decode_frame : DataFrame -> list (Z * P))
    (df : DataFrame) (x : Z * P) :
  x ∈ decode_tp_data decode_frame df
  <-> ∃ r0, r0 ∈ df
        ∧ x ∈ decode_frame
                (filter (fun r : Row => DataLength r.2 = DataLength r0.2) df).
Proof.
  rewrite decode_tp_data_perm, list_elem_of_bind. split.
  - intros ([k g] & Hx & Hg). apply elem_of_groupby in Hg as [(r0 & Hr0 & <-) ->].
    eauto.
  - intros (r0 & Hr0 & Hx).
    exists (DataLength r0.2,
            filter (fun r : Row => DataLength r.2 = DataLength r0.2) df).
    split; [exact Hx|]. apply elem_of_groupby. eauto.
Qed.

(** Filtering on each key of a duplicate-free key list splits a table. *)
Lemma add_to_its_group {A : Type} (k0 : Z) (x : A) (F : Z -> list A) (ks : list Z) :
  NoDup ks ->
  ks ≫= (fun k => if decide (k0 = k) then x :: F k else F k)
  ≡ₚ (if decide (k0 ∈ ks) then [x] else []) ++ (ks ≫= F).
Proof.
  induction 1 as [|k ks Hk Hnd IH]; [reflexivity|].
  rewrite !bind_cons, IH.
  destruct (decide (k0 = k)) as [->|Hne].
  - rewrite (decide_True (P := k ∈ k :: ks)) by left.
    rewrite (decide_False (P := k ∈ ks)) by exact Hk. reflexivity.
  - destruct (decide (k0 ∈ ks)) as [Hin|Hout].
    + rewrite (decide_True (P := k0 ∈ k :: ks)) by (right; exact Hin).
      cbn. rewrite Permutation_middle. reflexivity.
    + rewrite (decide_False (P := k0 ∈ k :: ks)); [reflexivity|].
      rewrite elem_of_cons. tauto.
Qed.

Lemma split_by_keys (col : Row -> Z) (ks : list Z) (df : DataFrame) :
  NoDup ks -> (∀ r, r ∈ df -> col r ∈ ks) ->
  ks ≫= (fun k => filter (fun r : Row => col r = k) df) ≡ₚ df.
Proof.
  intros Hnd. induction df as [|r df IH]; intros Hall.
  - clear Hall Hnd. induction ks as [|k ks IHk]; [reflexivity|].
    rewrite bind_cons, IHk. reflexivity.
  - rewrite (list_bind_ext _ (fun k => if decide (col r = k)
                                        then r :: filter (fun r : Row => col r = k) df
                                        else filter (fun r : Row => col r = k) df)
                           ks ks);
      [| intros k; rewrite filter_cons; reflexivity | reflexivity].
    rewrite add_to_its_group by exact Hnd.
    rewrite decide_True by (apply Hall; left). cbn.
    rewrite IH; [reflexivity|]. intros r' Hr'. apply Hall. right. exact Hr'.
Qed.

Lemma groupby_partition (df : DataFrame) :
  groupby DataLength df ≫= (fun g => g.2) ≡ₚ df.
Proof.
  unfold groupby.
  rewrite <- (split_by_keys (fun r => DataLength r.2)
                (merge_sort Z.le (remove_dups (DataLength <$> (snd <$> df)))) df) at 2.
  - generalize (merge_sort Z.le (remove_dups (DataLength <$> (snd <$> df)))).
    intros ks. induction ks as [|k ks IH]; [reflexivity|].
    rewrite fmap_cons, !bind_cons, IH. reflexivity.
  - rewrite merge_sort_Permutation. apply NoDup_remove_dups.
  - intros r Hr. rewrite merge_sort_Permutation, elem_of_remove_dups.
    apply (list_elem_of_fmap_2 DataLength), (list_elem_of_fmap_2 snd). exact Hr.
Qed.

(** X15: for a decoder that works row by row, grouping by declared
    length loses and duplicates nothing: the result of [decode_tp_data] is
    a rearrangement of the rows decoded one by one. *)
Theorem X15_decode_tp_data_rowwise {P : Type} (decode_row : Row -> list (Z * P))
    (df : DataFrame) :
  decode_tp_data (fun g => g ≫= decode_row) df ≡ₚ df ≫= decode_row.
Proof.
  rewrite decode_tp_data_perm.
  rewrite <- (groupby_partition df) at 2.
  generalize (groupby DataLength df). intros gs.
  induction gs as [|g gs IH]; [reflexivity|].
  rewrite !bind_cons, bind_app, IH. reflexivity.
Qed.

(** ** The file system [setup_fs] chooses *)

Lemma append_cons (a : ascii) (s t : string) :
  String.append (String a s) t = String a (String.append s t).
Proof. reflexivity. Qed.

Lemma prefix_spec (sub s : string) :
  String.prefix sub s = true <-> ∃ post, s = String.append sub post.
Proof.
  revert s. induction sub as [|a sub IH]; intros s.
  - split; [intros _; exists s; reflexivity | intros _; destruct s; reflexivity].
  - destruct s as [|b s]; cbn.
    + split; [discriminate | intros [post E]; rewrite append_cons in E; discriminate].
    + destruct (Ascii.ascii_dec a b) as [->|Hne].
      * rewrite IH. split; intros [post E]; exists post.
        -- rewrite append_cons, E. reflexivity.
        -- rewrite append_cons in E. injection E as E. exact E.
      * split; [discriminate | intros [post E]; rewrite append_cons in E; congruence].
Qed.

Lemma contains_spec (sub s : string) :
  contains sub s = true
  <-> ∃ pre post, s = String.append pre (String.append sub post).
Proof.
  induction s as [|c s IH]; cbn [contains].
  - rewrite orb_false_r, prefix_spec. split.
    + intros [post E]. exists EmptyString, post. exact E.
    + intros (pre & post & E). destruct pre; [eauto | rewrite append_cons in E; discriminate].
  - rewrite orb_true_iff, prefix_spec, IH. split.
    + intros [[post E]|(pre & post & E)].
      * exists EmptyString, post. exact E.
      * exists (String c pre), post. rewrite append_cons, E. reflexivity.
    + intros (pre & post & E). destruct pre as [|c' pre].
      * left. exists post. exact E.
      * right. exists pre, post. rewrite append_cons in E. injection E as _ E. exact E.
Qed.

(** X16: with [s3] set, [setup_fs] builds an S3 file system with the key
    and secret as given; it passes no client arguments exactly when the
    endpoint contains [amazonaws], and otherwise passes the endpoint as
    [endpoint_url] and the certificate as [verify] exactly when the
    certificate is not empty. *)
Theorem X16_setup_fs_s3 (module_dir key secret endpoint cert : string) :
  ∃ kw, setup_fs module_dir true key secret endpoint cert = S3FileSystem key secret kw
        ∧ (kw = None
           <-> ∃ pre post, endpoint = String.append pre (String.append "amazonaws" post))
        ∧ (∀ m, kw = Some m ->
             m !! "endpoint_url"%string = Some endpoint
             ∧ m !! "verify"%string
               = if String.eqb cert EmptyString then None else Some cert).
Proof.
  unfold setup_fs.
  pose proof (contains_spec "amazonaws" endpoint) as Hc.
  destruct (contains "amazonaws" endpoint).
  - exists None. split; [reflexivity|]. split.
    + split; [intros _; apply Hc; reflexivity | reflexivity].
    + discriminate.
  - assert (Hno : ¬ ∃ pre post,
               endpoint = String.append pre (String.append "amazonaws" post)).
    { intros H. apply Hc in H. discriminate. }
    destruct (String.eqb cert EmptyString); cbn [negb].
    + eexists. split; [reflexivity|]. split.
      * split; [discriminate | intros H; contradiction].
      * intros m [= <-]. split; [apply lookup_singleton_eq|].
        apply lookup_singleton_ne. discriminate.
    + eexists. split; [reflexivity|]. split.
      * split; [discriminate | intros H; contradiction].
      * intros m [= <-]. split; [apply lookup_insert_eq|].
        rewrite lookup_insert_ne by discriminate. apply lookup_singleton_eq.
Qed.

(** * Sequences in the returned table *)

(** ** Rows that match no tag *)

Lemma row_body_unmatched p bam_id_hex bam_id base_frame (s : heap * Locals) (r : Row) :
  matches_no_tag p bam_id r -> row_body p bam_id_hex bam_id base_frame s r = Ok s.
Proof.
  intros (b & Hb & Hs & Hf & Hc). destruct r as [index row]. cbn [snd] in *.
  unfold row_body. rewrite Hb. cbn [mbind result_bind]. rewrite Hs, Hf, Hc. reflexivity.
Qed.

Lemma matches_no_tag_id p bam_id (r : Row) : matches_no_tag p bam_id r -> ID r.2 ≠ bam_id.
Proof.
  intros (b & _ & _ & Hf & _) E. rewrite is_first_by_id in Hf.
  apply Z.eqb_neq in Hf. congruence.
Qed.

Lemma not_isin_app (ids : list Z) (df1 df2 : DataFrame) :
  not_isin ids (df1 ++ df2) = not_isin ids df1 ++ not_isin ids df2.
Proof. unfold not_isin. apply filter_app. Qed.

Lemma unmatched_row_no_effect (df1 df2 : DataFrame) (r : Row)
    (ids : list Z) (p : Profile) (bam_id_hex : string) (bam_id : Z) :
  bam_id_of bam_id_hex = Ok bam_id ->
  ID r.2 ∈ ids ->
  matches_no_tag p bam_id r ->
  isin [ID r.2; bam_id] df1 ≠ [] ->
  combine_tp_frames (mkDecoder (df1 ++ r :: df2) ids) p bam_id_hex
  = combine_tp_frames (mkDecoder (df1 ++ df2) ids) p bam_id_hex.
Proof.
  intros Hbam Hid Hno Hbefore. unfold combine_tp_frames. cbn [df_raw res_id_list].
  destruct df1 as [|r1 df1]; [contradiction Hbefore; reflexivity|].
  cbn [app].
  destruct (groupby_cons BusChannel r1 (df1 ++ r :: df2)) as ([c1 g1] & gs1 & ->).
  destruct (groupby_cons BusChannel r1 (df1 ++ df2)) as ([c2 g2] & gs2 & ->).
  change (r1 :: df1 ++ r :: df2) with ((r1 :: df1) ++ r :: df2).
  change (r1 :: df1 ++ df2) with ((r1 :: df1) ++ df2).
  set (d1 := r1 :: df1) in *.
  rewrite (for_each_ext
             (res_id_body (mkDecoder (d1 ++ r :: df2) ids) p bam_id_hex)
             (res_id_body (mkDecoder (d1 ++ df2) ids) p bam_id_hex)); [reflexivity|].
  intros [h st] res_id. unfold res_id_body. rewrite Hbam.
  cbn [mbind result_bind df_raw res_id_list].
  assert (Hexcl : not_isin ids (d1 ++ r :: df2) = not_isin ids (d1 ++ df2)).
  { rewrite !not_isin_app. f_equal. apply not_isin_cons_in. exact Hid. }
  rewrite Hexcl. rewrite !isin_app.
  pose proof (matches_no_tag_id _ _ _ Hno) as Hnb.
  destruct (Z.eq_dec (ID r.2) res_id) as [E|N].
  - subst res_id. rewrite isin_cons_in by left.
    destruct (isin [ID r.2; bam_id] d1) as [|row0 rest1] eqn:E1; [contradiction|].
    cbn [app]. destruct (alloc h row0.2) as [h0 base_frame].
    change (row0 :: rest1 ++ r :: isin [ID r.2; bam_id] df2)
      with ((row0 :: rest1) ++ r :: isin [ID r.2; bam_id] df2).
    change (row0 :: rest1 ++ isin [ID r.2; bam_id] df2)
      with ((row0 :: rest1) ++ isin [ID r.2; bam_id] df2).
    rewrite !for_each_app.
    destruct (for_each _ (row0 :: rest1) _) as [s1|e]; [|reflexivity].
    cbn [mbind result_bind for_each].
    rewrite (row_body_unmatched _ _ _ _ _ _ Hno). reflexivity.
  - rewrite isin_cons_notin; [reflexivity|].
    rewrite !elem_of_cons. intros [E|[E|E]]; [congruence | congruence | inversion E].
Qed.

(** C5 (amended): a row of a watched identifier whose first payload byte
    passes none of the three tests, and which is not the first row of the
    filtered table of its identifier (that row is the template), is
    skipped: on the table with the row [combine_tp_frames] gives what it
    gives on the table without it, the same table or the same exception,
    and a table it returns is made of the rows of the table without it
    whose identifier is outside the target list and of synthesized
    frames.  The row raises nothing, adds nothing to a synthesized frame
    and, as every row of a watched identifier, does not pass through. *)
Theorem C5_unmatched_row_skipped_and_removed (df1 df2 : DataFrame) (r : Row)
    (ids : list Z) (p : Profile) (bam_id_hex : string) (bam_id : Z) :
  bam_id_of bam_id_hex = Ok bam_id ->
  ID r.2 ∈ ids ->
  matches_no_tag p bam_id r ->
  isin [ID r.2; bam_id] df1 ≠ [] ->
  combine_tp_frames (mkDecoder (df1 ++ r :: df2) ids) p bam_id_hex
  = combine_tp_frames (mkDecoder (df1 ++ df2) ids) p bam_id_hex
  ∧ ∀ out,
      combine_tp_frames (mkDecoder (df1 ++ r :: df2) ids) p bam_id_hex = Ok (Some out) ->
      ∃ tp, out ≡ₚ not_isin ids (df1 ++ df2) ++ tp
            ∧ Forall (synthesized (mkDecoder (df1 ++ df2) ids) p bam_id) tp.
Proof.
  intros Hbam Hid Hno Hbefore.
  pose proof (unmatched_row_no_effect df1 df2 r ids p bam_id_hex bam_id
                Hbam Hid Hno Hbefore) as Heq.
  split; [exact Heq|].
  intros out Hrun. rewrite Heq in Hrun. unfold combine_tp_frames in Hrun.
  destruct (groupby BusChannel (df_raw (mkDecoder (df1 ++ df2) ids)))
    as [|[channel g] gs]; [discriminate|].
  inv_bind Hrun as [h st] Hloop. inversion Hrun; subst out; clear Hrun.
  destruct (for_each_merged_with _ _ _ _ _ Hbam _ _ Hloop (res_inv_init _ _ _))
    as (tp & Htp & Hsyn & _).
  { right. exists (ID r.2). split; [exact Hid|]. cbn [df_raw].
    rewrite isin_app. intros E. apply app_eq_nil in E as [E _]. contradiction. }
  exists tp. cbn [snd df_raw res_id_list] in Htp. rewrite sort_index_perm, Htp. auto.
Qed.

(** C5, as stated, fails: the flow-control frame of the watched
    identifier in [uds_unmatched_table] matches no tag and is absent from
    the output. *)
Lemma C5_unmatched_row_not_passed :
  ¬ passes_unmatched_rows (mkDecoder uds_unmatched_table [0x7E8]) uds_profile EmptyString.
Proof.
  intros H.
  destruct (H 0 (1, raw 0x7E8 [0x30; 0x00; 0x00])) as (out & Hout & Hin).
  - reflexivity.
  - left.
  - left.
  - exists 0x30. repeat split; reflexivity.
  - vm_compute in Hout. inversion Hout; subst out.
    apply list_elem_of_singleton in Hin. discriminate.
Qed.

(** A flow-control frame between the two halves of [uds_id0_table]. *)
Lemma C5_unmatched_row_skipped_and_removed_witness :
  combine_tp_frames
    (mkDecoder (uds_id0_head ++ uds_flow_control :: uds_id0_tail) [0x7E8])
    uds_profile EmptyString
  = combine_tp_frames
      (mkDecoder (uds_id0_head ++ uds_id0_tail) [0x7E8]) uds_profile EmptyString
  ∧ ∀ out,
      combine_tp_frames
        (mkDecoder (uds_id0_head ++ uds_flow_control :: uds_id0_tail) [0x7E8])
        uds_profile EmptyString = Ok (Some out) ->
      ∃ tp, out ≡ₚ not_isin [0x7E8] (uds_id0_head ++ uds_id0_tail) ++ tp
            ∧ Forall (synthesized (mkDecoder (uds_id0_head ++ uds_id0_tail) [0x7E8])
                                  uds_profile 0) tp.
Proof.
  apply (C5_unmatched_row_skipped_and_removed uds_id0_head uds_id0_tail
           uds_flow_control [0x7E8] uds_profile EmptyString 0).
  - reflexivity.
  - left.
  - exists 0x30. repeat split; reflexivity.
  - discriminate.
Defined.

(** On that table the output is the one of [uds_id0_table]: the
    flow-control frame is in neither. *)
Example flow_control_dropped :
  combine_tp_frames_uds
    (mkDecoder (uds_id0_head ++ uds_flow_control :: uds_id0_tail) [0x7E8])
  = Ok (Some uds_id0_output).
Proof. vm_compute. reflexivity. Qed.

(** Other rows of a watched identifier stop the call: an empty payload,
    a first frame met while bytes wait and no first frame came before, an
    announce frame too short to hold a PGN. *)
Example empty_payload_raises :
  combine_tp_frames_uds (mkDecoder [(1, raw 0x7E8 [])] [0x7E8]) = Raise IndexError.
Proof. vm_compute. reflexivity. Qed.

Example flush_before_first_frame_raises :
  combine_tp_frames_uds
    (mkDecoder [(1, raw 0x7E8 [0x21; 0x03; 0x04; 0x05]); (2, raw 0 [0x01; 0x00])]
               [0x7E8])
  = Raise UnboundLocalError.
Proof. vm_compute. reflexivity. Qed.

Example short_announce_raises :
  combine_tp_frames_j1939
    (mkDecoder [(1, raw 0x1CECFF00 [0x20; 0x09; 0x00; 0x02; 0xFF])] [0x1CEBFF00])
    "1CECFF00"
  = Raise ValueError.
Proof. vm_compute. reflexivity. Qed.

(** ** The row loop, sequence by sequence *)

Lemma for_each_prefix_inv {S A : Type} (I : list A -> S -> Prop)
    (body : S -> A -> result S) :
  (∀ done x s s', I done s -> body s x = Ok s' -> I (done ++ [x]) s') ->
  ∀ l done s s', I done s -> for_each body l s = Ok s' -> I (done ++ l) s'.
Proof.
  intros Hstep. induction l as [|x l IH]; intros done s s' HI Hrun; cbn in Hrun.
  - inversion Hrun; subst. rewrite app_nil_r. exact HI.
  - inv_bind Hrun as s1 H1.
    replace (done ++ x :: l) with ((done ++ [x]) ++ l)
      by (rewrite <- app_assoc; reflexivity).
    eapply IH; [|exact Hrun]. eapply Hstep; eauto.
Qed.

Lemma opens_sequence_dec p bam_id (r : Row) :
  opens_sequence p bam_id r ∨ ¬ opens_sequence p bam_id r.
Proof.
  unfold opens_sequence. destruct (DataBytes r.2) as [|b l]; cbn.
  - right. intros (b & Hb & _). discriminate.
  - destruct (is_single p b) eqn:Hs.
    + right. intros (b' & Hb & Hs' & _). inversion Hb; subst. congruence.
    + destruct (is_first p bam_id b (ID r.2)) eqn:Hf.
      * left. eauto.
      * right. intros (b' & Hb & _ & Hf'). inversion Hb; subst. congruence.
Qed.

Lemma row_body_other p bam_id_hex bam_id base_frame h st (r : Row) s' :
  ¬ opens_sequence p bam_id r ->
  row_body p bam_id_hex bam_id base_frame (h, st) r = Ok s' ->
  s' = (h, add_payload st (conseq_part p r)).
Proof.
  intros Hno Hrun. destruct r as [index row]. unfold conseq_part. cbn [snd] in *.
  unfold row_body in Hrun. unfold opens_sequence in Hno. cbn [snd] in Hno.
  destruct (DataBytes row) as [|b l] eqn:Ep; cbn in Hrun; [discriminate|].
  destruct (is_single p b) eqn:Hs; [discriminate|].
  destruct (is_first p bam_id b (ID row)) eqn:Hf.
  - exfalso. apply Hno. exists b. auto.
  - destruct (is_conseq p b).
    + inversion Hrun. reflexivity.
    + inversion Hrun. rewrite add_payload_nil. reflexivity.
Qed.

Lemma last_opening_unique (P : Row -> Prop) (pre : DataFrame) : ∀ first datas pre' first' datas',
  pre ++ first :: datas = pre' ++ first' :: datas' ->
  P first -> P first' ->
  Forall (fun r => ¬ P r) datas -> Forall (fun r => ¬ P r) datas' ->
  pre = pre' ∧ first = first' ∧ datas = datas'.
Proof.
  induction pre as [|a pre IH]; intros first datas pre' first' datas' E Hf Hf' Hd Hd'.
  - destruct pre' as [|a' pre']; cbn in E.
    + inversion E. auto.
    + inversion E; subst. exfalso.
      rewrite Forall_forall in Hd. apply (Hd first'); [|exact Hf'].
      apply elem_of_app. right. left.
  - destruct pre' as [|a' pre']; cbn in E.
    + inversion E; subst. exfalso.
      rewrite Forall_forall in Hd'. apply (Hd' first); [|exact Hf].
      apply elem_of_app. right. left.
    + inversion E; subst.
      destruct (IH _ _ _ _ _ H1 Hf Hf' Hd Hd') as (-> & -> & ->). auto.
Qed.

Lemma sequence_of_snoc p bam_id (done : DataFrame) first datas (x : Row) :
  sequence_of p bam_id done first datas true ->
  sequence_of p bam_id (done ++ [x]) first datas true.
Proof.
  intros (Hf & Hd & pre & post & -> & next & rest & -> & Hn).
  split; [exact Hf|]. split; [exact Hd|].
  exists pre, (next :: rest ++ [x]). split.
  - rewrite <- !app_assoc. cbn. rewrite <- !app_assoc. reflexivity.
  - eauto.
Qed.

Lemma sequence_of_snoc_inv p bam_id (done : DataFrame) first datas (x : Row) :
  sequence_of p bam_id (done ++ [x]) first datas true ->
  sequence_of p bam_id done first datas true
  ∨ (opens_sequence p bam_id x ∧ ∃ pre, done = pre ++ first :: datas).
Proof.
  intros (Hf & Hd & pre & post & E & next & rest & -> & Hn).
  destruct (decide (rest = [])) as [->|Hne].
  - right.
    replace (pre ++ first :: datas ++ [next]) with ((pre ++ first :: datas) ++ [next]) in E
      by (rewrite <- app_assoc; reflexivity).
    apply app_inj_tail in E as [E1 E2]. subst x. split; [exact Hn|]. eauto.
  - left. destruct (exists_last Hne) as (rest' & y & ->).
    replace (pre ++ first :: datas ++ next :: rest' ++ [y])
      with ((pre ++ first :: datas ++ next :: rest') ++ [y]) in E
      by (rewrite <- !app_assoc; cbn; rewrite <- !app_assoc; reflexivity).
    apply app_inj_tail in E as [E1 E2].
    split; [exact Hf|]. split; [exact Hd|]. exists pre, (next :: rest'). eauto.
Qed.

Lemma df_raw_tp_emit st t f :
  length (frame_timestamp_list st) = length (frame_list st) ->
  df_raw_tp (emit st t f) = df_raw_tp st ++ [(t, f)].
Proof.
  intros Hlen. unfold df_raw_tp, emit. cbn.
  rewrite (zip_with_app pair _ [t] _ [f] Hlen). reflexivity.
Qed.

Lemma gathered_bytes_snoc p first datas (x : Row) :
  gathered_bytes p first (datas ++ [x]) = gathered_bytes p first datas ++ conseq_part p x.
Proof.
  unfold gathered_bytes. rewrite fmap_app, concat_app. cbn.
  rewrite app_nil_r, app_assoc. reflexivity.
Qed.

Lemma rebuilt_sequence_frame p bam_id_hex template st f (first : Row) datas :
  BusChannel f = BusChannel template -> IDE f = IDE template ->
  (bam_id_hex = EmptyString -> ID f = ID template) ->
  (bam_id_hex = EmptyString -> can_id st = None) ->
  payload_concatenated st = gathered_bytes p first datas ->
  (bam_id_hex ≠ EmptyString ->
   ∃ c, bam_can_id (DataBytes first.2) = Ok c ∧ can_id st = Some c) ->
  sequence_frame p bam_id_hex template first datas
  = Ok (TimeStamp first, rebuilt f (payload_concatenated st) (can_id st)).
Proof.
  intros Hch Hide Hid Hnone Hpay Hcid.
  unfold sequence_frame, rebuilt. rewrite Hpay, Hch, Hide.
  destruct (String.eqb_spec bam_id_hex EmptyString) as [E|E].
  - rewrite (Hnone E), (Hid E). reflexivity.
  - destruct (Hcid E) as (c & Hc & ->). rewrite Hc.
    rewrite (bam_can_id_nonzero _ _ Hc). reflexivity.
Qed.

Lemma row_body_seq_inv p bam_id_hex bam_id template base_frame ts0
    (done : DataFrame) (x : Row) (s s' : heap * Locals) :
  seq_inv p bam_id_hex bam_id template base_frame ts0 done s ->
  row_body p bam_id_hex bam_id base_frame s x = Ok s' ->
  seq_inv p bam_id_hex bam_id template base_frame ts0 (done ++ [x]) s'.
Proof.
  destruct s as [h st].
  intros ((f & Hf & Hch & Hide & Hid) & Hlen & Hnone & Hstate & Hsound & Hcompl) Hrun.
  cbn [fst snd] in *.
  destruct (opens_sequence_dec p bam_id x) as [Hopen|Hno].
  - (* a first frame *)
    rewrite (row_body_first _ _ _ _ _ _ Hopen) in Hrun.
    inv_bind Hrun as [h1 st1] Hfl. inv_bind Hrun as cid Hcid.
    inversion Hrun; subst s'; clear Hrun. cbn [fst snd].
    assert (Hflush :
      (h1 = h ∧ st1 = st ∧ payload_concatenated st = [])
      ∨ (∃ t f', payload_concatenated st ≠ []
                 ∧ frame_timestamp st = Some t
                 ∧ f' = rebuilt f (payload_concatenated st) (can_id st)
                 ∧ h1 = <[base_frame := f']> h ∧ st1 = emit st t f')).
    { destruct (payload_concatenated st) as [|b l] eqn:Ep.
      - left. rewrite flush_empty in Hfl by exact Ep. inversion Hfl. auto.
      - right. rewrite (flush_nonempty _ _ _ f) in Hfl by (rewrite ?Ep; done).
        unfold read_frame_timestamp in Hfl.
        destruct (frame_timestamp st) as [t|]; [|discriminate].
        cbn in Hfl. inversion Hfl. rewrite Ep. eauto 10. }
    assert (Hcan1 : can_id st1 = can_id st).
    { destruct Hflush as [(_ & -> & _)|(t & f' & _ & _ & _ & _ & ->)]; reflexivity. }
    assert (Hcid' : (bam_id_hex = EmptyString -> cid = None)
                    ∧ (bam_id_hex ≠ EmptyString ->
                       ∃ c, bam_can_id (DataBytes x.2) = Ok c ∧ cid = Some c)).
    { destruct (String.eqb_spec bam_id_hex EmptyString) as [E|E].
      - inversion Hcid. split; [|contradiction]. intros _. rewrite Hcan1. auto.
      - inv_bind Hcid as c Hc. inversion Hcid. split; [contradiction|]. eauto. }
    (* the frame the flush emits is the frame of the open sequence *)
    assert (Hnew : ∀ t f', frame_timestamp st = Some t ->
              f' = rebuilt f (payload_concatenated st) (can_id st) ->
              ∀ pre first datas, done = pre ++ first :: datas ->
                opens_sequence p bam_id first ->
                Forall (fun r => ¬ opens_sequence p bam_id r) datas ->
                frame_timestamp st = Some (TimeStamp first) ->
                payload_concatenated st = gathered_bytes p first datas ->
                (bam_id_hex ≠ EmptyString ->
                 ∃ c, bam_can_id (DataBytes first.2) = Ok c ∧ can_id st = Some c) ->
                sequence_of p bam_id (done ++ [x]) first datas true
                ∧ sequence_frame p bam_id_hex template first datas = Ok (t, f')).
    { intros t f' Ht Ef' pre first datas Edone Hfirst Hdatas Hts Hpay Hc.
      split.
      - split; [exact Hfirst|]. split; [exact Hdatas|].
        exists pre, [x]. split.
        + rewrite Edone, <- app_assoc. reflexivity.
        + eauto.
      - rewrite (rebuilt_sequence_frame p bam_id_hex template st f first datas)
          by assumption.
        rewrite Ef'. congruence. }
    unfold seq_inv. cbn [fst snd].
    split; [|split; [|split; [|split; [|split]]]].
    + (* the template *)
      destruct Hflush as [(-> & -> & _)|(t & f' & _ & _ & -> & -> & ->)]; cbn.
      * eauto 10.
      * rewrite lookup_insert_eq. eexists. split; [reflexivity|].
        unfold rebuilt. cbn. repeat split; try assumption.
        intros E. rewrite (Hnone E). cbn. auto.
    + destruct Hflush as [(-> & -> & _)|(t & f' & _ & _ & -> & -> & ->)]; cbn.
      * exact Hlen.
      * rewrite !length_app. cbn. lia.
    + cbn. apply Hcid'.
    + right. exists done, x, []. cbn.
      split; [reflexivity|]. split; [exact Hopen|]. split; [constructor|].
      split; [reflexivity|]. split.
      * unfold gathered_bytes. cbn. rewrite app_nil_r. reflexivity.
      * apply Hcid'.
    + (* every emitted frame is the frame of a sequence *)
      intros Ets0 r Hr. change (df_raw_tp (open_sequence p st1 x.1 (DataBytes x.2) cid))
        with (df_raw_tp st1) in Hr.
      destruct Hflush as [(-> & -> & _)|(t & f' & Hne & Ht & Ef' & -> & ->)].
      * destruct (Hsound Ets0 r Hr) as (first & datas & Hseq & Hfr).
        exists first, datas. split; [apply sequence_of_snoc; exact Hseq | exact Hfr].
      * rewrite df_raw_tp_emit in Hr by exact Hlen.
        apply elem_of_app in Hr as [Hr|Hr].
        -- destruct (Hsound Ets0 r Hr) as (first & datas & Hseq & Hfr).
           exists first, datas. split; [apply sequence_of_snoc; exact Hseq | exact Hfr].
        -- apply list_elem_of_singleton in Hr. subst r.
           destruct Hstate as [(_ & Hts & _)|(pre & first & datas & Ed & Hfi & Hda & Hts & Hpay & Hc)].
           ++ congruence.
           ++ exists first, datas. eapply Hnew; eauto.
    + (* every closed sequence has its frame *)
      intros first datas Hseq Hne.
      change (df_raw_tp (open_sequence p st1 x.1 (DataBytes x.2) cid)) with (df_raw_tp st1).
      assert (Hmono : ∀ r, r ∈ df_raw_tp st -> r ∈ df_raw_tp st1).
      { intros r Hr.
        destruct Hflush as [(-> & -> & _)|(t & f' & _ & _ & _ & -> & ->)]; [exact Hr|].
        rewrite df_raw_tp_emit by exact Hlen. apply elem_of_app. left. exact Hr. }
      pose proof Hseq as (Hfi' & Hda' & _).
      apply sequence_of_snoc_inv in Hseq as [Hseq|(_ & pre' & Edone)].
      * destruct (Hcompl first datas Hseq Hne) as (r & Hfr & Hr). eauto.
      * destruct Hstate as [(Hall & _)|(pre & first0 & datas0 & Ed & Hfi & Hda & Hts & Hpay & Hc)].
        -- exfalso. rewrite Forall_forall in Hall. apply (Hall first); [|exact Hfi'].
           rewrite Edone. apply elem_of_app. right. left.
        -- rewrite Ed in Edone.
           destruct (last_opening_unique (opens_sequence p bam_id) _ _ _ _ _ _
                       Edone Hfi Hfi' Hda Hda') as (-> & -> & ->).
           destruct Hflush as [(_ & _ & Hnil)|(t & f' & Hne' & Ht & Ef' & -> & ->)].
           ++ exfalso. apply Hne. rewrite <- Hpay. exact Hnil.
           ++ exists (t, f'). split.
              ** eapply Hnew; eauto.
              ** rewrite df_raw_tp_emit by exact Hlen. apply elem_of_app. right. left.
  - (* any other row *)
    apply (row_body_other _ _ _ _ _ _ _ _ Hno) in Hrun. subst s'. cbn [fst snd].
    change (df_raw_tp (add_payload st (conseq_part p x))) with (df_raw_tp st).
    unfold seq_inv. cbn [fst snd].
    split; [|split; [|split; [|split; [|split]]]].
    + eauto 10.
    + exact Hlen.
    + exact Hnone.
    + destruct Hstate as [(Hall & Hts & Hc & Hfl)|(pre & first & datas & Ed & Hfi & Hda & Hts & Hpay & Hc)].
      * left. split; [|auto]. apply Forall_app. split; [exact Hall|]. constructor; [exact Hno|constructor].
      * right. exists pre, first, (datas ++ [x]). split.
        { rewrite Ed, <- app_assoc. reflexivity. }
        split; [exact Hfi|]. split.
        { apply Forall_app. split; [exact Hda|]. constructor; [exact Hno|constructor]. }
        split; [exact Hts|]. split; [|exact Hc].
        cbn. rewrite Hpay, gathered_bytes_snoc. reflexivity.
    + intros Ets0 r Hr. destruct (Hsound Ets0 r Hr) as (first & datas & Hseq & Hfr).
      exists first, datas. split; [apply sequence_of_snoc; exact Hseq | exact Hfr].
    + intros first datas Hseq Hne.
      apply sequence_of_snoc_inv in Hseq as [Hseq|(Hx & _)]; [|contradiction].
      apply Hcompl; assumption.
Qed.

Lemma for_each_seq_inv p bam_id_hex bam_id template base_frame
    (rows : DataFrame) (h h' : heap) (dc : DataFrame) (ts0 : option Z) (st' : Locals) :
  h !! base_frame = Some template ->
  for_each (row_body p bam_id_hex bam_id base_frame) rows
           (h, mkLocals dc [] [] [] None ts0) = Ok (h', st') ->
  seq_inv p bam_id_hex bam_id template base_frame ts0 rows (h', st').
Proof.
  intros Hbase Hrun.
  apply (for_each_prefix_inv
           (seq_inv p bam_id_hex bam_id template base_frame ts0)
           (row_body p bam_id_hex bam_id base_frame)
           (row_body_seq_inv p bam_id_hex bam_id template base_frame ts0)
           rows [] _ _) in Hrun; [exact Hrun|].
  unfold seq_inv. cbn.
  split; [eauto 10|]. split; [reflexivity|]. split; [reflexivity|].
  split; [left; repeat split; constructor|].
  split.
  - intros _ r Hr. inversion Hr.
  - intros first datas (_ & _ & pre & post & E & _).
    destruct pre; discriminate.
Qed.

Lemma sequence_frame_channel p bam_id_hex template first datas (r : Row) :
  sequence_frame p bam_id_hex template first datas = Ok r ->
  BusChannel r.2 = BusChannel template.
Proof.
  unfold sequence_frame. intros H. inv_bind H as id Hid. inversion H. reflexivity.
Qed.

(** ** What the output is made of *)

(** C4 (amended): for one watched identifier, on a table of one channel
    in which the identifier or the broadcast id has a row, every row of
    the table [combine_tp_frames] returns is an input row whose identifier
    is outside the target list, or the frame of a sequence of the filtered
    table: the bytes the sequence gathered, under the time stamp of its
    first frame, on the channel of the table, with the identifier of the
    template or the one rebuilt from the first frame, so that it may carry
    a target identifier.  And the frame of every sequence that gathered a
    byte and is followed by a further first frame is in the table. *)
Theorem C4_output_rows (self : MultiFrameDecoder) (p : Profile)
    (bam_id_hex : string) (bam_id res_id channel : Z)
    (row0 : Row) (rest out : DataFrame) :
  bam_id_of bam_id_hex = Ok bam_id ->
  res_id_list self = [res_id] ->
  (∀ r, r ∈ df_raw self -> BusChannel r.2 = channel) ->
  isin [res_id; bam_id] (df_raw self) = row0 :: rest ->
  combine_tp_frames self p bam_id_hex = Ok (Some out) ->
  (∀ r, r ∈ out ->
     passed_through self r
     ∨ (BusChannel r.2 = channel
        ∧ ∃ first datas closed,
            sequence_of p bam_id (row0 :: rest) first datas closed
            ∧ sequence_frame p bam_id_hex row0.2 first datas = Ok r))
  ∧ (∀ first datas,
       sequence_of p bam_id (row0 :: rest) first datas true ->
       gathered_bytes p first datas ≠ [] ->
       ∃ r, sequence_frame p bam_id_hex row0.2 first datas = Ok r ∧ r ∈ out).
Proof.
  intros Hbam Hids Hchannel Hfilter Hrun. unfold combine_tp_frames in Hrun.
  destruct (groupby BusChannel (df_raw self)) as [|[c g] gs]; [discriminate|].
  rewrite Hids in Hrun. cbn [for_each] in Hrun.
  inv_bind Hrun as [h st] Hloop. inversion Hrun; subst out; clear Hrun.
  inv_bind Hloop as [h1 st1] Hbody. inversion Hloop; subst h1 st1; clear Hloop.
  unfold res_id_body in Hbody. rewrite Hbam in Hbody. cbn [mbind result_bind] in Hbody.
  rewrite Hfilter in Hbody.
  pose proof (alloc_lookup ∅ row0.2) as Hbase.
  destruct (alloc ∅ row0.2) as [h0 base_frame]. cbn [fst snd] in Hbase.
  inv_bind Hbody as [h2 st2] Hrows. inversion Hbody; subst h st; clear Hbody.
  apply (for_each_seq_inv _ _ _ row0.2) in Hrows; [|exact Hbase].
  destruct Hrows as (_ & _ & _ & _ & Hsound & Hcompl). cbn [fst snd] in *.
  split.
  - intros r Hr. apply (proj1 (elem_of_sort_index _ _)) in Hr. cbn in Hr.
    apply elem_of_app in Hr as [Hr|Hr].
    + left. apply elem_of_not_isin in Hr. exact Hr.
    + right. destruct (Hsound eq_refl r Hr) as (first & datas & Hseq & Hfr).
      split.
      * rewrite (sequence_frame_channel _ _ _ _ _ _ Hfr). apply Hchannel.
        assert (Hin : row0 ∈ isin [res_id; bam_id] (df_raw self))
          by (rewrite Hfilter; left).
        apply elem_of_isin in Hin. tauto.
      * exists first, datas, true. auto.
  - intros first datas Hseq Hne.
    destruct (Hcompl first datas Hseq Hne) as (r & Hfr & Hr).
    exists r. split; [exact Hfr|].
    apply elem_of_sort_index. cbn. apply elem_of_app. right. exact Hr.
Qed.

(** C4, as stated, fails: on [uds_id0_table] with the target list
    [[0x7E8]] the output holds a synthesized frame whose identifier is
    the target identifier [0x7E8]. *)
Lemma C4_target_id_in_output :
  ¬ no_target_id_in_output (mkDecoder uds_id0_table [0x7E8]) uds_profile EmptyString.
Proof.
  intros H.
  apply (H uds_id0_output (2, uds_id0_frame)).
  - vm_compute. reflexivity.
  - in_list.
  - in_list.
Qed.

(** The J1939 sample closed by a second announce frame. *)
Lemma C4_output_rows_witness :
  (∀ r, r ∈ j1939_closed_output ->
     passed_through (mkDecoder j1939_closed_table [0x1CEBFF00]) r
     ∨ (BusChannel r.2 = 1
        ∧ ∃ first datas closed,
            sequence_of j1939_profile 0x1CECFF00 j1939_closed_table first datas closed
            ∧ sequence_frame j1939_profile "1CECFF00" bam_announce first datas = Ok r))
  ∧ (∀ first datas,
       sequence_of j1939_profile 0x1CECFF00 j1939_closed_table first datas true ->
       gathered_bytes j1939_profile first datas ≠ [] ->
       ∃ r, sequence_frame j1939_profile "1CECFF00" bam_announce first datas = Ok r
            ∧ r ∈ j1939_closed_output).
Proof.
  apply (C4_output_rows (mkDecoder j1939_closed_table [0x1CEBFF00]) j1939_profile
           "1CECFF00" 0x1CECFF00 0x1CEBFF00 1 (1, bam_announce)
           [(2, bam_data_1); (3, bam_data_2); (4, bam_announce)]).
  - reflexivity.
  - reflexivity.
  - intros r Hr. cbn in Hr. each_row Hr; reflexivity.
  - vm_compute. reflexivity.
  - vm_compute. reflexivity.
Defined.

(** Each identifier of the list overwrites the merged table of the one
    before: the frame synthesized for [0x1CEBFF00] is in the output when
    that identifier is watched alone, and is lost when [0x1CEBFE00] is
    watched after it. *)
Example last_identifier_overwrites :
  ∃ out1 out2,
    combine_tp_frames_j1939 (mkDecoder two_id_table [0x1CEBFF00]) "1CECFF00"
    = Ok (Some out1)
    ∧ combine_tp_frames_j1939 (mkDecoder two_id_table [0x1CEBFF00; 0x1CEBFE00])
                              "1CECFF00"
      = Ok (Some out2)
    ∧ (1, two_id_first_frame) ∈ out1
    ∧ (1, two_id_first_frame) ∉ out2.
Proof.
  eexists. eexists.
  split; [vm_compute; reflexivity|].
  split; [vm_compute; reflexivity|].
  split; [in_list|].
  intros H. repeat (apply elem_of_cons in H as [H|H]; [discriminate|]).
  inversion H.
Qed.

(** ** The J1939 identifier of an announced parameter group *)






(** The same four rows as a table: the output holds the synthesized frame
    at the time stamp of the first announce frame. *)
Example j1939_table_flushed :
  combine_tp_frames_j1939 (mkDecoder (j1939_table ++ [(4, bam_announce)]) [0x1CEBFF00])
                          "1CECFF00"
  = Ok (Some [(1, bam_announce); (1, j1939_frame); (4, bam_announce)]).
Proof. vm_compute. reflexivity. Qed.
